(** * stacker: the build action (stacker/actions/build.py)

    A shallow embedding of the build action: the gates [should_update] and
    [should_submit], the parameter resolver [_resolve_parameters], the
    fallback [_handle_missing_parameters], [build_parameters], the launch of
    one stack [_launch_stack], the plan builder [_generate_plan] and the hook
    stages [pre_run] and [post_run].

    Python dictionaries are finite maps ([gmap]) and Python sets are finite
    sets ([gset]); the order of a dictionary's items is not modelled.  The
    provider, the template publisher, the hook runner and the stack's own
    [resolve] are outside build.py: they are fields of the [Action] record,
    state transformers over a state type [W] that may raise, and every call
    the action makes to one of them is written to a call log. *)

From stdpp Require Import gmap strings list fin_maps pretty.
From Stdlib Require Import ZArith Ascii String.

Open Scope string_scope.
Open Scope Z_scope.
Open Scope list_scope.

(** ** Python values *)

(** The values a parameter can take in a stack definition or in a stack
    description: [None], a [bool], an [int] or a [str]. *)
Inductive pyval : Type :=
  | PNone
  | PBool (b : bool)
  | PInt (z : Z)
  | PStr (s : string).

#[global] Instance pyval_eq_dec : EqDecision pyval.
Proof. solve_decision. Defined.

(** [str(v)] *)
Definition py_str (v : pyval) : string :=
  match v with
  | PNone => "None"
  | PBool true => "True"
  | PBool false => "False"
  | PInt z => pretty z
  | PStr s => s
  end.

(** [c.lower()] on one character: the letters [A]..[Z] move to [a]..[z]. *)
Definition lower_ascii (c : ascii) : ascii :=
  let n := nat_of_ascii c in
  if ((65 <=? n) && (n <=? 90))%nat then ascii_of_nat (n + 32) else c.

(** [s.lower()] *)
Fixpoint lower (s : string) : string :=
  match s with
  | EmptyString => EmptyString
  | String c s' => String (lower_ascii c) (lower s')
  end.

(** [bool(v)]: Python's truth value. *)
Definition py_truthy (v : pyval) : bool :=
  match v with
  | PNone => false
  | PBool b => b
  | PInt z => negb (z =? 0)
  | PStr s => negb (String.eqb s "")
  end.

(** [isinstance(v, bool)] *)
Definition is_bool (v : pyval) : bool :=
  match v with PBool _ => true | _ => false end.

(** [v is None] *)
Definition is_none (v : pyval) : bool :=
  match v with PNone => true | _ => false end.

(** ** Data model *)

(** One CloudFormation parameter, the dictionary
    [{'ParameterKey': k, 'ParameterValue': v}]. *)
Record cf_param : Type := CfParam {
  ParameterKey : string;
  ParameterValue : pyval
}.

(** One tag, the dictionary [{'Key': k, 'Value': v}]. *)
Record cf_tag : Type := CfTag {
  Key : string;
  Value : string
}.

(** A stack description as [provider.get_stack] returns it: a dictionary
    that may hold a ['Parameters'] entry, next to other entries of which only
    the keys matter here. *)
Record description : Type := Description {
  Parameters : option (list cf_param);
  other_keys : gset string
}.

(** The truth value of a description: a dictionary is true when it is not
    empty. *)
Definition description_truthy (d : description) : bool :=
  match Parameters d with
  | Some _ => true
  | None => negb (bool_decide (other_keys d = ∅))
  end.

(** ['Parameters' in d] *)
Definition has_Parameters (d : description) : bool :=
  match Parameters d with Some _ => true | None => false end.

(** A blueprint: its name, the parameter definitions it declares
    ([get_parameter_definitions()], a dictionary keyed by parameter name) and
    the rendered template. *)
Record Blueprint : Type := {
  bp_name : string;
  get_parameter_definitions : gmap string string;
  rendered : string
}.

Record Stack : Type := {
  name : string;
  fqn : string;
  blueprint : Blueprint;
  parameter_values : gmap string pyval;
  required_parameter_definitions : gmap string string;
  requires : gset string;
  locked : bool;
  force : bool;
  enabled : bool
}.

(** ** The gates *)

Definition should_update (stack : Stack) : bool :=
  if locked stack then
    if negb (force stack) then false else true
  else true.

Definition should_submit (stack : Stack) : bool :=
  if enabled stack then true else false.

(** ** The parameter resolver *)

(** The body of the loop of [_resolve_parameters], for one item of
    [parameters]. *)
Definition resolve_item (param_defs : gmap string string)
    (params : gmap string pyval) (kv : string * pyval) : gmap string pyval :=
  let '(key, value) := kv in
  if negb (bool_decide (key ∈ dom param_defs)) then params
  else if is_none value then params
  else
    let value := if is_bool value then PStr (lower (py_str value)) else value in
    <[key := value]> params.

Definition _resolve_parameters (parameters : gmap string pyval)
    (blueprint : Blueprint) : gmap string pyval :=
  let param_defs := get_parameter_definitions blueprint in
  foldl (resolve_item param_defs) ∅ (map_to_list parameters).

(** ** Exceptions, results and the action monad *)

Inductive exn : Type :=
  | StackDoesNotExist
  | StackDidNotChange
  | MissingParameterException (parameters : list string)
  | KeyError (key : string)
  | OtherError (msg : string).

Inductive result (A : Type) : Type :=
  | Raise (e : exn)
  | Return (a : A).
Arguments Raise {A} e.
Arguments Return {A} a.

Inductive Status : Type :=
  | NotSubmittedStatus
  | NotUpdatedStatus
  | DidNotChangeStatus
  | SubmittedStatus (reason : string).

(** A call that leaves build.py. *)
Inductive call : Type :=
  | CallResolve (stack_fqn : string)
  | CallPush (blueprint_name : string)
  | CallGetStack (stack_name : string)
  | CallUpdateStack (stack_fqn template_url : string)
      (parameters : list cf_param) (tags : list cf_tag)
  | CallCreateStack (stack_fqn template_url : string)
      (parameters : list cf_param) (tags : list cf_tag)
  | CallHandleHooks (stage : string) (hooks : list string).

(** The world an action runs in: the state of what lies outside build.py and
    the log of the calls made so far, oldest first. *)
Record world (W : Type) : Type := World {
  remote : W;
  calls : list call
}.
Arguments World {W} remote calls.
Arguments remote {W} w.
Arguments calls {W} w.

(** A computation that reads and writes the world and returns or raises. A
    raise keeps the world as it was when the exception left. *)
Definition M (W A : Type) : Type := world W → result A * world W.

Definition ret {W A} (a : A) : M W A := λ w, (Return a, w).

Definition raise {W A} (e : exn) : M W A := λ w, (Raise e, w).

Definition bind {W A B} (c : M W A) (k : A → M W B) : M W B :=
  λ w, match c w with
       | (Return a, w') => k a w'
       | (Raise e, w') => (Raise e, w')
       end.

Notation "'let*' x ':=' c 'in' k" := (bind c (λ x, k))
  (at level 10, x name, c at level 100, k at level 200).

(** [try: body except ...: handler]: [handler e] is [None] for an exception
    no clause catches. An exception raised inside a handler is not caught by
    the clauses next to it. *)
Definition try_except {W A} (body : M W A) (handler : exn → option (M W A))
    : M W A :=
  λ w, match body w with
       | (Return a, w') => (Return a, w')
       | (Raise e, w') =>
           match handler e with
           | Some h => h w'
           | None => (Raise e, w')
           end
       end.

(** A call to a collaborator: it runs on the remote state and is logged. *)
Definition external {W A} (c : call) (f : W → result A * W) : M W A :=
  λ w, let '(r, s) := f (remote w) in (r, World s (calls w ++ [c])).

(** ** The collaborators *)

Record Provider (W : Type) : Type := {
  get_stack : string → W → result (option description) * W;
  update_stack : string → string → list cf_param → list cf_tag →
                 W → result unit * W;
  create_stack : string → string → list cf_param → list cf_tag →
                 W → result unit * W;
  poll_events : W → result unit * W
}.
Arguments get_stack {W} p _ _.
Arguments update_stack {W} p _ _ _ _ _.
Arguments create_stack {W} p _ _ _ _ _.
Arguments poll_events {W} p _.

(** The build context: the build-wide tags, the configuration dictionary (of
    which the action reads the hook lists) and the stacks of the build. *)
Record Context : Type := {
  tags : gmap string string;
  config : gmap string (list string);
  get_stacks : list Stack;
  logger_type : string
}.

(** The action object. Besides [context] and [provider] it carries what
    build.py calls and does not define: [s3_stack_push] and
    [get_stack_execution_order] of the base action, [util.handle_hooks], and
    [stack.resolve(context, provider)], which settles the values the stack
    takes from the outputs of other stacks and so yields the stack's
    parameter values after the call; the stack's other attributes are set
    when the stack object is built. *)
Record Action (W : Type) : Type := {
  context : Context;
  provider : Provider W;
  s3_stack_push : Blueprint → W → result string * W;
  stack_resolve : Stack → W → result (gmap string pyval) * W;
  handle_hooks : string → list string → W → result unit * W;
  get_stack_execution_order : gmap string (gset string) → list string
}.
Arguments context {W} a.
Arguments provider {W} a.
Arguments s3_stack_push {W} a _ _.
Arguments stack_resolve {W} a _ _.
Arguments handle_hooks {W} a _ _ _.
Arguments get_stack_execution_order {W} a _.

(** The stack object after [stack.resolve]. *)
Definition resolved_stack (stack : Stack) (values : gmap string pyval) : Stack :=
  {| name := name stack;
     fqn := fqn stack;
     blueprint := blueprint stack;
     parameter_values := values;
     required_parameter_definitions := required_parameter_definitions stack;
     requires := requires stack;
     locked := locked stack;
     force := force stack;
     enabled := enabled stack |}.

Section ActionMethods.
Context {W : Type}.
Variable self : Action W.

(** *** The missing-parameter fallback *)

(** [{p['ParameterKey']: p['ParameterValue'] for p in ...}]: of two entries
    with one key the later one stays. *)
Definition stack_params_of (entries : list cf_param) : gmap string pyval :=
  foldl (λ m p, <[ParameterKey p := ParameterValue p]> m) ∅ entries.

(** The body of the loop over [missing_params]. *)
Definition fill_from (stack_params : gmap string pyval)
    (params : gmap string pyval) (p : string) : gmap string pyval :=
  match stack_params !! p with
  | Some value => <[p := value]> params
  | None => params
  end.

(** [list(set(required_params) - set(params.keys()))]; the order Python
    gives the list is not specified, here it is that of [elements]. *)
Definition missing_of (required_params : list string)
    (params : gmap string pyval) : list string :=
  elements ((list_to_set required_params : gset string) ∖ dom params).

Definition _handle_missing_parameters (params : gmap string pyval)
    (required_params : list string) (existing_stack_name : string)
    : M W (list (string * pyval)) :=
  let missing_params := missing_of required_params params in
  match missing_params with
  | [] => ret (map_to_list params)
  | _ :: _ =>
      let* existing_stack :=
        try_except
          (external (CallGetStack existing_stack_name)
             (get_stack (provider self) existing_stack_name))
          (λ e, match e with
                | StackDoesNotExist => Some (ret None)
                | _ => None
                end) in
      let params :=
        match existing_stack with
        | Some d =>
            if description_truthy d && has_Parameters d then
              let stack_params := stack_params_of (default [] (Parameters d)) in
              foldl (fill_from stack_params) params missing_params
            else params
        | None => params
        end in
      let final_missing := missing_of required_params params in
      match final_missing with
      | [] => ret (map_to_list params)
      | _ :: _ => raise (MissingParameterException final_missing)
      end
  end.

(** *** Parameters and tags *)

Definition build_parameters (stack : Stack) : M W (list cf_param) :=
  let resolved := _resolve_parameters (parameter_values stack) (blueprint stack) in
  let required_parameters :=
    (map_to_list (required_parameter_definitions stack)).*1 in
  let* parameters :=
    _handle_missing_parameters resolved required_parameters (fqn stack) in
  ret ((λ p : string * pyval, CfParam p.1 (PStr (py_str p.2))) <$> parameters).

Definition _build_stack_tags (stack : Stack) : list cf_tag :=
  (λ t : string * string, CfTag t.1 t.2) <$> map_to_list (tags (context self)).

(** *** Launching one stack *)

Definition _launch_stack (stack : Stack) : M W Status :=
  if negb (should_submit stack) then ret NotSubmittedStatus
  else
    let* values :=
      external (CallResolve (fqn stack)) (stack_resolve self stack) in
    let stack := resolved_stack stack values in
    let* template_url :=
      external (CallPush (bp_name (blueprint stack)))
        (s3_stack_push self (blueprint stack)) in
    let tags := _build_stack_tags stack in
    let* parameters := build_parameters stack in
    if negb (should_update stack) then ret NotUpdatedStatus
    else
      try_except
        (let* _ :=
           external (CallUpdateStack (fqn stack) template_url parameters tags)
             (update_stack (provider self) (fqn stack) template_url
                parameters tags) in
         ret (SubmittedStatus "UPDATING_STACK"))
        (λ e, match e with
              | StackDidNotChange => Some (ret DidNotChangeStatus)
              | StackDoesNotExist =>
                  Some (let* _ :=
                          external
                            (CallCreateStack (fqn stack) template_url
                               parameters tags)
                            (create_stack (provider self) (fqn stack)
                               template_url parameters tags) in
                        ret (SubmittedStatus "CREATE_STACK"))
              | _ => None
              end).
End ActionMethods.

(** ** The plan *)

(** One node of a plan: the stack, its run function and the names of the
    stacks that have to be done before it ([None] when [requires=None] is
    handed over). *)
Record Step (W : Type) : Type := {
  step_stack : Stack;
  run_func : Stack → M W Status;
  step_requires : option (gset string)
}.
Arguments step_stack {W} s.
Arguments run_func {W} s _.
Arguments step_requires {W} s.

(** The plan: what [Plan(...)] is built with and the nodes in the order they
    were added, keyed by fully-qualified name. *)
Record Plan (W : Type) : Type := {
  plan_description : string;
  plan_logger_type : string;
  plan_tail : bool;
  poll_func : W → result unit * W;
  steps : list (string * Step W)
}.
Arguments plan_description {W} p.
Arguments plan_logger_type {W} p.
Arguments plan_tail {W} p.
Arguments poll_func {W} p _.
Arguments steps {W} p.

(** [d[k] = v] on an ordered dictionary: a key already there keeps its place
    and takes the new value, a new key goes to the end. *)
Fixpoint od_insert {A : Type} (k : string) (v : A) (d : list (string * A))
    : list (string * A) :=
  match d with
  | [] => [(k, v)]
  | (k', v') :: d' =>
      if decide (k = k') then (k, v) :: d' else (k', v') :: od_insert k v d'
  end.

(** [d.get(k)] on an ordered dictionary. *)
Fixpoint od_get {A : Type} (k : string) (d : list (string * A)) : option A :=
  match d with
  | [] => None
  | (k', v') :: d' => if decide (k = k') then Some v' else od_get k d'
  end.

(** Modelled from the spec: [Plan.add] is not in build.py. Section 3 has the
    plan keyed by fully-qualified name, each node carrying a run function and
    its required predecessor names. *)
Definition plan_add {W} (plan : Plan W) (stack : Stack)
    (run : Stack → M W Status) (req : option (gset string)) : Plan W :=
  {| plan_description := plan_description plan;
     plan_logger_type := plan_logger_type plan;
     plan_tail := plan_tail plan;
     poll_func := poll_func plan;
     steps := od_insert (fqn stack)
                {| step_stack := stack; run_func := run; step_requires := req |}
                (steps plan) |}.

(** Modelled from the spec: [Context.get_stacks_dict] is not in build.py.
    Section 3 has the fully-qualified name as the key of a stack; the
    dictionary maps each name to the stack of [get_stacks] that bears it. *)
Definition get_stacks_dict (ctx : Context) : gmap string Stack :=
  foldl (λ d stack, <[fqn stack := stack]> d) ∅ (get_stacks ctx).

Section PlanAndHooks.
Context {W : Type}.
Variable self : Action W.

Definition _get_dependencies : gmap string (gset string) :=
  foldl (λ dependencies stack, <[fqn stack := requires stack]> dependencies)
    ∅ (get_stacks (context self)).

(** The body of the loop of [_generate_plan]; [stacks[stack_name]] raises
    [KeyError] for a name that is not a key. *)
Definition add_step (stacks : gmap string Stack)
    (dependencies : gmap string (gset string))
    (acc : result (Plan W)) (stack_name : string) : result (Plan W) :=
  match acc with
  | Raise e => Raise e
  | Return plan =>
      match stacks !! stack_name with
      | None => Raise (KeyError stack_name)
      | Some stack =>
          Return (plan_add plan stack (_launch_stack self)
                    (dependencies !! stack_name))
      end
  end.

Definition _generate_plan (tail : bool) : result (Plan W) :=
  let plan := {| plan_description := "Create/Update stacks";
                 plan_logger_type := logger_type (context self);
                 plan_tail := tail;
                 poll_func := poll_events (provider self);
                 steps := [] |} in
  let stacks := get_stacks_dict (context self) in
  let dependencies := _get_dependencies in
  foldl (add_step stacks dependencies) (Return plan)
    (get_stack_execution_order self dependencies).

(** *** The hook stages *)

(** The truth value of [config.get(key)]: [None] and the empty list are
    false. *)
Definition hooks_truthy (hooks : option (list string)) : bool :=
  match hooks with
  | Some (_ :: _) => true
  | _ => false
  end.

Definition pre_run (outline : bool) (dump : pyval) : M W unit :=
  let pre_build := config (context self) !! "pre_build" in
  let should_run_hooks :=
    negb outline && negb (py_truthy dump) && hooks_truthy pre_build in
  if should_run_hooks then
    external (CallHandleHooks "pre_build" (default [] pre_build))
      (handle_hooks self "pre_build" (default [] pre_build))
  else ret tt.

Definition post_run (outline : bool) (dump : pyval) : M W unit :=
  let post_build := config (context self) !! "post_build" in
  if negb outline && negb (py_truthy dump) && hooks_truthy post_build then
    external (CallHandleHooks "post_build" (default [] post_build))
      (handle_hooks self "post_build" (default [] post_build))
  else ret tt.
End PlanAndHooks.

(** ** Running the build *)

(** [logging.DEBUG] *)
Definition DEBUG : Z := 10.

(** A call of a method of the plan; [PlanOutline None] is [plan.outline()]
    with the level left to the method's default. *)
Inductive plan_call : Type :=
  | PlanOutline (level : option Z)
  | PlanExecute
  | PlanDump (directory : pyval).

(** The methods of the plan that [run] calls. They are not in build.py: each
    is a computation in the action's world that may raise. *)
Record PlanMethods (W : Type) : Type := {
  plan_outline : Plan W → option Z → M W unit;
  plan_execute : Plan W → M W unit;
  plan_dump : Plan W → pyval → Context → M W unit
}.
Arguments plan_outline {W} p _ _.
Arguments plan_execute {W} p _.
Arguments plan_dump {W} p _ _ _.

(** The world of [run]: the action's world and the log of the calls made to
    the plan's methods, oldest first. *)
Record run_world (W : Type) : Type := RunWorld {
  rw_world : world W;
  rw_plan_calls : list plan_call
}.
Arguments RunWorld {W} rw_world rw_plan_calls.
Arguments rw_world {W} r.
Arguments rw_plan_calls {W} r.

(** A call to a method of the plan: it runs in the action's world and is
    logged. *)
Definition plan_method {W A} (c : plan_call) (m : M W A) (rw : run_world W)
    : result A * run_world W :=
  let '(r, w') := m (rw_world rw) in
  (r, RunWorld w' (rw_plan_calls rw ++ [c])).

(** [Action.run]; the plan's keys are only read for a log message. *)
Definition run {W} (self : Action W) (methods : PlanMethods W)
    (outline : bool) (tail : bool) (dump : pyval) (rw : run_world W)
    : result unit * run_world W :=
  match _generate_plan self tail with
  | Raise e => (Raise e, rw)
  | Return plan =>
      if negb outline && negb (py_truthy dump) then
        match plan_method (PlanOutline (Some DEBUG))
                (plan_outline methods plan (Some DEBUG)) rw with
        | (Raise e, rw1) => (Raise e, rw1)
        | (Return _, rw1) =>
            plan_method PlanExecute (plan_execute methods plan) rw1
        end
      else
        match (if outline
               then plan_method (PlanOutline None)
                      (plan_outline methods plan None) rw
               else (Return tt, rw)) with
        | (Raise e, rw1) => (Raise e, rw1)
        | (Return _, rw1) =>
            if py_truthy dump
            then plan_method (PlanDump dump)
                   (plan_dump methods plan dump (context self)) rw1
            else (Return tt, rw1)
        end
  end.

(** ** A simulated provider

    A small provider to run the action on: the remote state maps the name of
    each deployed stack to its template URL and its parameters. *)
Module Sim.
#[global] Instance cf_param_eq_dec : EqDecision cf_param.
Proof. solve_decision. Defined.

Definition state : Type := gmap string (string * list cf_param).

Definition describe (stack_name : string) (ps : list cf_param) : description :=
  {| Parameters := Some ps; other_keys := {[ "StackName" ]} |}.

Definition sim_get_stack (stack_name : string) (s : state)
    : result (option description) * state :=
  match s !! stack_name with
  | Some (_, ps) => (Return (Some (describe stack_name ps)), s)
  | None => (Raise StackDoesNotExist, s)
  end.

Definition sim_update_stack (stack_fqn url : string) (ps : list cf_param)
    (ts : list cf_tag) (s : state) : result unit * state :=
  match s !! stack_fqn with
  | None => (Raise StackDoesNotExist, s)
  | Some (url', ps') =>
      if bool_decide (url = url' ∧ ps = ps') then (Raise StackDidNotChange, s)
      else (Return tt, <[stack_fqn := (url, ps)]> s)
  end.

Definition sim_create_stack (stack_fqn url : string) (ps : list cf_param)
    (ts : list cf_tag) (s : state) : result unit * state :=
  match s !! stack_fqn with
  | None => (Return tt, <[stack_fqn := (url, ps)]> s)
  | Some _ => (Raise (OtherError "AlreadyExistsException"), s)
  end.

Definition sim_provider : Provider state :=
  {| get_stack := sim_get_stack;
     update_stack := sim_update_stack;
     create_stack := sim_create_stack;
     poll_events := λ s, (Return tt, s) |}.

Definition sim_blueprint (bname : string) (defs : list string) : Blueprint :=
  {| bp_name := bname;
     get_parameter_definitions := list_to_map ((λ k, (k, "String")) <$> defs);
     rendered := "{}" |}.

Definition sim_stack (n : string) (defs : list string)
    (values : list (string * pyval)) (required : list string)
    (req : list string) (lck frc enb : bool) : Stack :=
  {| name := n;
     fqn := "ns-" +:+ n;
     blueprint := sim_blueprint n defs;
     parameter_values := list_to_map values;
     required_parameter_definitions :=
       list_to_map ((λ k, (k, "String")) <$> required);
     requires := list_to_set req;
     locked := lck;
     force := frc;
     enabled := enb |}.

Definition sim_context (stacks : list Stack)
    (cfg : list (string * list string)) : Context :=
  {| tags := {[ "stacker_namespace" := "ns" ]};
     config := list_to_map cfg;
     get_stacks := stacks;
     logger_type := "default" |}.

(** An action over the simulated provider: [resolve] leaves the supplied
    values as they are, the publisher answers with a URL made of the
    blueprint's name, the hook runner does nothing, and the execution order
    is that of the keys of the dependency dictionary. *)
Definition sim_action (stacks : list Stack)
    (cfg : list (string * list string)) : Action state :=
  {| context := sim_context stacks cfg;
     provider := sim_provider;
     s3_stack_push := λ bp s, (Return ("https://s3/" +:+ bp_name bp), s);
     stack_resolve := λ st s, (Return (parameter_values st), s);
     handle_hooks := λ _ _ s, (Return tt, s);
     get_stack_execution_order := λ d, (map_to_list d).*1 |}.

Definition start (s : state) : world state := World s [].
End Sim.

(** ** Vocabulary of the properties *)

(** What the loop body of [_resolve_parameters] keeps of one item. *)
Definition kept (param_defs : gmap string string) (key : string) (value : pyval)
    : option pyval :=
  if bool_decide (key ∈ dom param_defs) then
    if is_none value then None
    else Some (if is_bool value then PStr (lower (py_str value)) else value)
  else None.

(** The parameter values of the deployed stack as the fallback reads them:
    those of the ['Parameters'] entry of a description that is true and has
    one, none otherwise. *)
Definition fallback_values (existing_stack : option description)
    : gmap string pyval :=
  match existing_stack with
  | Some d =>
      if description_truthy d && has_Parameters d
      then stack_params_of (default [] (Parameters d))
      else ∅
  | None => ∅
  end.

(** [{'ParameterKey': p[0], 'ParameterValue': str(p[1])}] *)
Definition submitted_param (p : string * pyval) : cf_param :=
  CfParam p.1 (PStr (py_str p.2)).

(** The [try] statement of [_launch_stack]: the update, and the create when
    the update raises [StackDoesNotExist]. *)
Definition update_or_create {W} (a : Action W) (stack : Stack)
    (template_url : string) (parameters : list cf_param) (tags : list cf_tag)
    : M W Status :=
  try_except
    (let* _ :=
       external (CallUpdateStack (fqn stack) template_url parameters tags)
         (update_stack (provider a) (fqn stack) template_url parameters tags) in
     ret (SubmittedStatus "UPDATING_STACK"))
    (λ e, match e with
          | StackDidNotChange => Some (ret DidNotChangeStatus)
          | StackDoesNotExist =>
              Some (let* _ :=
                      external
                        (CallCreateStack (fqn stack) template_url parameters tags)
                        (create_stack (provider a) (fqn stack) template_url
                           parameters tags) in
                    ret (SubmittedStatus "CREATE_STACK"))
          | _ => None
          end).

(** The world after [stack.resolve] and the template push. *)
Definition after_push {W} (w : world W) (stack : Stack) (s : W) : world W :=
  World s (calls w ++ [CallResolve (fqn stack);
                       CallPush (bp_name (blueprint stack))]).

(** A call that creates or updates a stack. *)
Definition is_submit_call (c : call) : bool :=
  match c with
  | CallUpdateStack _ _ _ _ | CallCreateStack _ _ _ _ => true
  | _ => false
  end.

(** The stage's hook list is configured: [config.get] gives a list with at
    least one hook. *)
Definition configured {W} (a : Action W) (key : string) : Prop :=
  ∃ h hs, config (context a) !! key = Some (h :: hs).

(** The run made one more call, to the hook runner for [stage]. *)
Definition hooks_invoked {W} (stage : string) (w : world W)
    (out : result unit * world W) : Prop :=
  ∃ hooks, calls out.2 = calls w ++ [CallHandleHooks stage hooks].

(** The value a supplied parameter is submitted with: a boolean as
    ['true'] or ['false'], anything else through [str()]. *)
Definition submitted_value (v : pyval) : string :=
  match v with
  | PBool b => if b then "true" else "false"
  | _ => py_str v
  end.

(** * Properties *)

(** ** The parameter resolver *)

#[local] Arguments resolve_item : simpl never.

Lemma resolve_item_lookup_eq D acc k v :
  resolve_item D acc (k, v) !! k =
    match kept D k v with Some v' => Some v' | None => acc !! k end.
Proof.
  unfold resolve_item, kept.
  destruct (bool_decide (k ∈ dom D)); simpl; [|done].
  destruct (is_none v); simpl; [done|].
  by rewrite lookup_insert_eq.
Qed.

Lemma resolve_item_lookup_ne D acc k k' v :
  k ≠ k' → resolve_item D acc (k, v) !! k' = acc !! k'.
Proof.
  intros Hne. unfold resolve_item.
  destruct (bool_decide (k ∈ dom D)); simpl; [|done].
  destruct (is_none v); simpl; [done|].
  by rewrite lookup_insert_ne.
Qed.

Lemma foldl_resolve_item_lookup D (l : list (string * pyval)) acc k :
  NoDup l.*1 →
  foldl (resolve_item D) acc l !! k =
    match (list_to_map l : gmap string pyval) !! k with
    | Some v => match kept D k v with Some v' => Some v' | None => acc !! k end
    | None => acc !! k
    end.
Proof.
  revert acc. induction l as [|[k0 v0] l IH]; intros acc Hnd; simpl.
  - by rewrite lookup_empty.
  - apply NoDup_cons in Hnd as [Hnotin Hnd].
    rewrite IH by done.
    destruct (decide (k0 = k)) as [->|Hne].
    + rewrite lookup_insert_eq.
      rewrite (not_elem_of_list_to_map_1 _ k) by done.
      apply resolve_item_lookup_eq.
    + rewrite lookup_insert_ne by done.
      rewrite resolve_item_lookup_ne by done. done.
Qed.

Lemma resolve_parameters_lookup P bp k :
  _resolve_parameters P bp !! k =
    P !! k ≫= kept (get_parameter_definitions bp) k.
Proof.
  unfold _resolve_parameters.
  rewrite foldl_resolve_item_lookup by apply NoDup_fst_map_to_list.
  rewrite list_to_map_to_list, lookup_empty.
  destruct (P !! k) as [v|]; simpl; [|done].
  by destruct (kept _ k v).
Qed.

(** C3: the map [_resolve_parameters] returns has no key outside the
    blueprint's parameter definitions, no [None] value and no boolean value;
    a declared key supplied with a boolean holds ['true'] or ['false'], a
    declared key supplied with another value that is not [None] holds that
    value, and a key that is not declared, or supplied with [None], or not
    supplied, is absent. The function is total: nothing is an error. *)
Theorem resolve_parameters_spec (P : gmap string pyval) (bp : Blueprint) :
  let D := get_parameter_definitions bp in
  let R := _resolve_parameters P bp in
  dom R ⊆ dom D ∧
  dom R ⊆ dom P ∧
  (∀ k, R !! k ≠ Some PNone) ∧
  (∀ k b, R !! k ≠ Some (PBool b)) ∧
  (∀ k b, k ∈ dom D → P !! k = Some (PBool b) →
          R !! k = Some (PStr (if b then "true" else "false"))) ∧
  (∀ k v, k ∈ dom D → P !! k = Some v → is_none v = false →
          is_bool v = false → R !! k = Some v) ∧
  (∀ k, k ∉ dom D ∨ P !! k = Some PNone ∨ P !! k = None → R !! k = None).
Proof.
  intros D R.
  assert (HR : ∀ k, R !! k = P !! k ≫= kept D k)
    by (intros; apply resolve_parameters_lookup).
  repeat split.
  - intros k [v Hv]%elem_of_dom. rewrite HR in Hv.
    destruct (P !! k) as [v0|]; simpl in Hv; [|done].
    unfold kept in Hv. case_bool_decide; [done|discriminate].
  - intros k [v Hv]%elem_of_dom. rewrite HR in Hv. apply elem_of_dom.
    destruct (P !! k) as [v0|]; [eauto|done].
  - intros k. rewrite HR. destruct (P !! k) as [v0|]; simpl; [|done].
    unfold kept. case_bool_decide; [|done]. by destruct v0.
  - intros k b. rewrite HR. destruct (P !! k) as [v0|]; simpl; [|done].
    unfold kept. case_bool_decide; [|done]. by destruct v0.
  - intros k b Hk HP. rewrite HR, HP. simpl. unfold kept.
    rewrite bool_decide_eq_true_2 by done. by destruct b.
  - intros k v Hk HP Hn Hb. rewrite HR, HP. simpl. unfold kept.
    rewrite bool_decide_eq_true_2 by done. by rewrite Hn, Hb.
  - intros k [Hk|[HP|HP]]; rewrite HR.
    + destruct (P !! k); simpl; [|done]. unfold kept.
      by rewrite bool_decide_eq_false_2.
    + rewrite HP. simpl. unfold kept. by case_bool_decide.
    + by rewrite HP.
Qed.

Lemma resolve_parameters_spec_witness :
  let bp := Sim.sim_blueprint "db" ["Flag"; "Port"; "Gone"] in
  let P : gmap string pyval :=
    list_to_map [("Flag", PBool true); ("Port", PInt 5432); ("Gone", PNone);
                 ("Extra", PStr "x")] in
  let R := _resolve_parameters P bp in
  R !! "Flag" = Some (PStr "true") ∧
  R !! "Port" = Some (PInt 5432) ∧
  R !! "Gone" = None ∧
  R !! "Extra" = None.
Proof.
  intros bp P R.
  destruct (resolve_parameters_spec P bp) as (_ & _ & _ & _ & Hb & Hv & Hn).
  split; [|split; [|split]].
  - apply (Hb "Flag" true); [compute_done|reflexivity].
  - apply (Hv "Port"); [compute_done|reflexivity..].
  - apply Hn. right. left. reflexivity.
  - apply Hn. left. compute_done.
Defined.

(** ** The missing-parameter fallback *)

Lemma elem_of_missing_of (R : list string) (M : gmap string pyval) k :
  k ∈ missing_of R M ↔ k ∈ R ∧ M !! k = None.
Proof.
  unfold missing_of. rewrite elem_of_elements, elem_of_difference.
  rewrite elem_of_list_to_set, not_elem_of_dom. done.
Qed.

Lemma NoDup_missing_of (R : list string) (M : gmap string pyval) :
  NoDup (missing_of R M).
Proof. apply NoDup_elements. Qed.

Lemma missing_of_nil (R : list string) (M : gmap string pyval) :
  missing_of R M = [] ↔ (list_to_set R : gset string) ⊆ dom M.
Proof.
  unfold missing_of. rewrite elements_empty_iff, elem_of_equiv_empty.
  split.
  - intros Hnone k Hk. destruct (decide (k ∈ dom M)) as [|Hn]; [done|].
    destruct (Hnone k). by apply elem_of_difference.
  - intros Hsub k [Hk Hn]%elem_of_difference. by apply Hn, Hsub.
Qed.

Lemma fill_from_empty (M : gmap string pyval) (l : list string) :
  foldl (fill_from ∅) M l = M.
Proof.
  induction l as [|p l IH]; simpl; [done|].
  unfold fill_from at 2. by rewrite lookup_empty.
Qed.

Lemma foldl_fill_from_lookup (sp M : gmap string pyval) (l : list string) k :
  foldl (fill_from sp) M l !! k =
    if decide (k ∈ l) then
      match sp !! k with Some v => Some v | None => M !! k end
    else M !! k.
Proof.
  revert M. induction l as [|p l IH]; intros M; cbn [foldl].
  - by rewrite decide_False by apply not_elem_of_nil.
  - rewrite IH. unfold fill_from.
    destruct (decide (k ∈ p :: l)) as [Hin|Hnin].
    + apply elem_of_cons in Hin. destruct (decide (k = p)) as [->|Hne].
      * destruct (sp !! p) as [v|] eqn:Hsp.
        -- rewrite lookup_insert_eq. by destruct (decide (p ∈ l)).
        -- by destruct (decide (p ∈ l)).
      * destruct Hin as [?|Hin]; [done|]. rewrite decide_True by done.
        destruct (sp !! p); [by rewrite lookup_insert_ne|done].
    + assert (k ≠ p ∧ k ∉ l) as [Hne Hl].
      { split; intros ?; apply Hnin, elem_of_cons; auto. }
      rewrite decide_False by done.
      destruct (sp !! p); [by rewrite lookup_insert_ne|done].
Qed.

(** The map after the loop over the missing names. *)
Lemma fallback_fill_lookup (sp M : gmap string pyval) (R : list string) k :
  foldl (fill_from sp) M (missing_of R M) !! k =
    match M !! k with
    | Some v => Some v
    | None => if decide (k ∈ R) then sp !! k else None
    end.
Proof.
  rewrite foldl_fill_from_lookup.
  destruct (decide (k ∈ missing_of R M)) as [Hin|Hnin].
  - apply elem_of_missing_of in Hin as [HR HM].
    rewrite HM, decide_True by done. by destruct (sp !! k).
  - destruct (M !! k) as [v|] eqn:HM; [done|].
    rewrite decide_False; [done|].
    intros HR. apply Hnin, elem_of_missing_of. done.
Qed.

Lemma elem_of_missing_of_fill (sp M : gmap string pyval) (R : list string) k :
  k ∈ missing_of R (foldl (fill_from sp) M (missing_of R M)) ↔
  k ∈ R ∧ M !! k = None ∧ sp !! k = None.
Proof.
  rewrite elem_of_missing_of, fallback_fill_lookup.
  destruct (M !! k) as [v|].
  - split; [intros [_ ?]|intros (_ & ? & _)]; done.
  - destruct (decide (k ∈ R)) as [HR|HR]; split.
    + intros [_ ?]; done.
    + intros (_ & _ & ?); done.
    + intros [? _]; done.
    + intros (? & _); done.
Qed.

Lemma missing_after_fill_nil (sp M : gmap string pyval) (R : list string) :
  missing_of R (foldl (fill_from sp) M (missing_of R M)) = [] ↔
  (list_to_set R ∖ dom M : gset string) ⊆ dom sp.
Proof.
  split.
  - intros Hnil k [HkR HkM]%elem_of_difference.
    apply elem_of_list_to_set in HkR. apply not_elem_of_dom in HkM.
    apply elem_of_dom. destruct (sp !! k) as [v|] eqn:Hsp; [eauto|].
    assert (Hin : k ∈ missing_of R (foldl (fill_from sp) M (missing_of R M)))
      by (by apply elem_of_missing_of_fill).
    rewrite Hnil in Hin. by apply elem_of_nil in Hin.
  - intros Hsub. apply elem_of_nil_inv.
    intros k (HkR & HkM & Hsp)%elem_of_missing_of_fill.
    apply not_elem_of_dom in Hsp. apply Hsp, Hsub, elem_of_difference.
    split; [by apply elem_of_list_to_set|by apply not_elem_of_dom].
Qed.

(** One run of the fallback when some required name is missing: the provider
    is asked once, and what it answers decides the outcome. *)
Lemma handle_missing_after_fetch {W} (a : Action W) (M : gmap string pyval)
    (R : list string) (stack_name : string) (w : world W)
    (r : result (option description)) (existing : option description) (s' : W) :
  missing_of R M ≠ [] →
  get_stack (provider a) stack_name (remote w) = (r, s') →
  r = Return existing ∨ (r = Raise StackDoesNotExist ∧ existing = None) →
  _handle_missing_parameters a M R stack_name w =
    (let M' := foldl (fill_from (fallback_values existing)) M (missing_of R M) in
     match missing_of R M' with
     | [] => Return (map_to_list M')
     | k :: l => Raise (MissingParameterException (k :: l))
     end,
     World s' (calls w ++ [CallGetStack stack_name])).
Proof.
  intros Hmiss Hget Hr. unfold _handle_missing_parameters.
  destruct (missing_of R M) as [|p l] eqn:Hm; [done|].
  unfold bind, try_except, external. rewrite Hget.
  assert (Hfill : (match existing with
                   | Some d =>
                       if description_truthy d && has_Parameters d
                       then foldl (fill_from (stack_params_of
                                     (default [] (Parameters d)))) M (p :: l)
                       else M
                   | None => M
                   end) = foldl (fill_from (fallback_values existing)) M (p :: l)).
  { unfold fallback_values. destruct existing as [d|].
    - destruct (description_truthy d && has_Parameters d); [done|].
      by rewrite fill_from_empty.
    - by rewrite fill_from_empty. }
  destruct Hr as [->|[-> ->]]; unfold ret at 1.
  - rewrite Hfill. destruct (missing_of R (foldl _ _ _)); reflexivity.
  - clear Hfill. cbn [fallback_values]. rewrite fill_from_empty, Hm.
    reflexivity.
Qed.

Lemma missing_of_nonempty (R : list string) (M : gmap string pyval) :
  (list_to_set R ∖ dom M : gset string) ≠ ∅ → missing_of R M ≠ [].
Proof.
  intros Hne Hnil. apply Hne. unfold missing_of in Hnil.
  apply elements_empty_iff in Hnil. by apply leibniz_equiv.
Qed.

(** C4: when every required name is a key of the resolved map, the fallback
    returns the items of that map and leaves the world as it was: the
    provider's state is untouched and no call, [get_stack] included, is
    logged. *)
Theorem handle_missing_parameters_noop {W} (a : Action W)
    (M : gmap string pyval) (R : list string) (stack_name : string)
    (w : world W) :
  (list_to_set R : gset string) ⊆ dom M →
  _handle_missing_parameters a M R stack_name w = (Return (map_to_list M), w).
Proof.
  intros Hsub. apply missing_of_nil in Hsub.
  unfold _handle_missing_parameters. by rewrite Hsub.
Qed.

Lemma handle_missing_parameters_noop_witness :
  let M : gmap string pyval := {[ "Size" := PStr "4" ]} in
  let w := Sim.start {[ "ns-db" := ("u", [CfParam "Size" (PStr "8")]) ]} in
  (list_to_set ["Size"] : gset string) ⊆ dom M ∧
  _handle_missing_parameters (Sim.sim_action [] []) M ["Size"] "ns-db" w
    = (Return (map_to_list M), w).
Proof.
  split; [compute_done|].
  apply handle_missing_parameters_noop. compute_done.
Defined.

(** C2: when some required name is missing from the resolved map, the
    provider is asked for the deployed stack. With a description [E]: if
    every missing name is among [E]'s parameter values the fallback returns
    the map in which each missing name holds [E]'s value and every other key
    is as before; if not it raises [MissingParameterException] with the
    names that are required, not in the map and not among [E]'s parameter
    values, each once. When the provider raises [StackDoesNotExist] the
    exception does not leave the fallback: it goes on with no fallback
    values. *)
Theorem handle_missing_parameters_fallback {W} (a : Action W)
    (M : gmap string pyval) (R : list string) (stack_name : string)
    (w : world W) :
  let missing : gset string := list_to_set R ∖ dom M in
  let run := _handle_missing_parameters a M R stack_name w in
  let logged := λ s', World s' (calls w ++ [CallGetStack stack_name]) in
  missing ≠ ∅ →
  (∀ E s',
     get_stack (provider a) stack_name (remote w) = (Return E, s') →
     let Ep := fallback_values E in
     (missing ⊆ dom Ep →
        ∃ M', run = (Return (map_to_list M'), logged s') ∧
              (∀ k, k ∈ missing → M' !! k = Ep !! k) ∧
              (∀ k, k ∉ missing → M' !! k = M !! k)) ∧
     (missing ⊈ dom Ep →
        ∃ l, run = (Raise (MissingParameterException l), logged s') ∧
             NoDup l ∧ ∀ k, k ∈ l ↔ k ∈ missing ∖ dom Ep)) ∧
  (∀ s',
     get_stack (provider a) stack_name (remote w)
       = (Raise StackDoesNotExist, s') →
     ∃ l, run = (Raise (MissingParameterException l), logged s') ∧
          NoDup l ∧ ∀ k, k ∈ l ↔ k ∈ missing).
Proof.
  intros missing run logged Hne.
  pose proof (missing_of_nonempty R M Hne) as Hm.
  assert (Hmiss : ∀ k, k ∈ missing ↔ k ∈ R ∧ M !! k = None).
  { intros k. unfold missing.
    by rewrite elem_of_difference, elem_of_list_to_set, not_elem_of_dom. }
  split.
  - intros E s' Hget Ep.
    pose proof (handle_missing_after_fetch a M R stack_name w _ E s' Hm Hget
                  (or_introl eq_refl)) as Hrun.
    cbv zeta in Hrun. fold Ep in Hrun.
    pose proof (missing_after_fill_nil Ep M R) as Hnil.
    split.
    + intros Hsub. exists (foldl (fill_from Ep) M (missing_of R M)).
      split; [|split].
      * unfold run. rewrite Hrun.
        by rewrite (proj2 Hnil Hsub).
      * intros k [HkR HkM]%Hmiss.
        by rewrite fallback_fill_lookup, HkM, decide_True.
      * intros k Hk. rewrite fallback_fill_lookup.
        destruct (M !! k) as [v|] eqn:HkM; [done|].
        rewrite decide_False; [done|].
        intros HkR. apply Hk, Hmiss. done.
    + intros Hnsub.
      exists (missing_of R (foldl (fill_from Ep) M (missing_of R M))).
      split; [|split].
      * unfold run. rewrite Hrun.
        destruct (missing_of R (foldl _ _ _)) as [|k l]; [|done].
        destruct Hnsub. by apply Hnil.
      * apply NoDup_missing_of.
      * intros k.
        rewrite elem_of_missing_of_fill, elem_of_difference, Hmiss,
          not_elem_of_dom.
        split; [intros (? & ? & ?)|intros [[? ?] ?]]; done.
  - intros s' Hget.
    pose proof (handle_missing_after_fetch a M R stack_name w _ None s' Hm Hget
                  (or_intror (conj eq_refl eq_refl))) as Hrun.
    cbn [fallback_values] in Hrun. cbv zeta in Hrun.
    rewrite fill_from_empty in Hrun.
    exists (missing_of R M). split; [|split].
    + unfold run. rewrite Hrun. by destruct (missing_of R M).
    + apply NoDup_missing_of.
    + intros k. by rewrite elem_of_missing_of, Hmiss.
Qed.

Lemma handle_missing_parameters_fallback_witness :
  let st : Sim.state := {[ "ns-db" := ("u", [CfParam "Size" (PStr "4")]) ]} in
  (list_to_set ["Size"] ∖ dom (∅ : gmap string pyval) : gset string) ≠ ∅ ∧
  ∃ M' : gmap string pyval,
    _handle_missing_parameters (Sim.sim_action [] []) ∅ ["Size"] "ns-db"
      (Sim.start st)
      = (Return (map_to_list M'), World st [CallGetStack "ns-db"]) ∧
    M' !! "Size" = Some (PStr "4").
Proof.
  intros st.
  assert (Hne : (list_to_set ["Size"] ∖ dom (∅ : gmap string pyval)
                 : gset string) ≠ ∅) by compute_done.
  split; [exact Hne|].
  destruct (handle_missing_parameters_fallback (Sim.sim_action [] []) ∅
              ["Size"] "ns-db" (Sim.start st) Hne) as [Hdesc _].
  destruct (Hdesc (Some (Sim.describe "ns-db" [CfParam "Size" (PStr "4")]))
              st eq_refl) as [Hok _].
  destruct Hok as (M' & Hrun & Hin & _); [compute_done|].
  exists M'. split; [exact Hrun|].
  rewrite Hin; [reflexivity|compute_done].
Defined.

(** C10: when some required name is missing and the provider answers with
    [None], with an empty description or with a description that has no
    ['Parameters'] entry, the fallback does not fail on the description: it
    raises [MissingParameterException] with the names that were missing at
    the start, each once. *)
Theorem handle_missing_parameters_no_Parameters {W} (a : Action W)
    (M : gmap string pyval) (R : list string) (stack_name : string)
    (w : world W) (E : option description) (s' : W) :
  (list_to_set R ∖ dom M : gset string) ≠ ∅ →
  get_stack (provider a) stack_name (remote w) = (Return E, s') →
  (E = None ∨
   ∃ d, E = Some d ∧ (description_truthy d = false ∨ Parameters d = None)) →
  _handle_missing_parameters a M R stack_name w
    = (Raise (MissingParameterException (missing_of R M)),
       World s' (calls w ++ [CallGetStack stack_name])) ∧
  NoDup (missing_of R M) ∧
  ∀ k, k ∈ missing_of R M ↔ k ∈ R ∧ k ∉ dom M.
Proof.
  intros Hne Hget HE.
  pose proof (missing_of_nonempty R M Hne) as Hm.
  assert (Hvals : fallback_values E = ∅).
  { destruct HE as [->|(d & -> & Hd)]; [done|].
    unfold fallback_values, description_truthy, has_Parameters in *.
    destruct (Parameters d); [|by rewrite andb_false_r].
    destruct Hd; discriminate. }
  split; [|split].
  - rewrite (handle_missing_after_fetch a M R stack_name w _ E s' Hm Hget
               (or_introl eq_refl)).
    cbv zeta. rewrite Hvals, fill_from_empty.
    by destruct (missing_of R M).
  - apply NoDup_missing_of.
  - intros k. by rewrite elem_of_missing_of, not_elem_of_dom.
Qed.

Lemma handle_missing_parameters_no_Parameters_witness :
  let a : Action unit :=
    {| context := Sim.sim_context [] [];
       provider :=
         {| get_stack := λ _ s,
              (Return (Some {| Parameters := None;
                               other_keys := {[ "StackName" ]} |}), s);
            update_stack := λ _ _ _ _ s, (Return tt, s);
            create_stack := λ _ _ _ _ s, (Return tt, s);
            poll_events := λ s, (Return tt, s) |};
       s3_stack_push := λ _ s, (Return "url", s);
       stack_resolve := λ st s, (Return (parameter_values st), s);
       handle_hooks := λ _ _ s, (Return tt, s);
       get_stack_execution_order := λ d, (map_to_list d).*1 |} in
  _handle_missing_parameters a ∅ ["Name"] "ns-e" (World tt [])
    = (Raise (MissingParameterException (missing_of ["Name"] ∅)),
       World tt ([] ++ [CallGetStack "ns-e"])) ∧
  missing_of ["Name"] (∅ : gmap string pyval) = ["Name"].
Proof.
  intros a. split; [|by vm_compute].
  apply (handle_missing_parameters_no_Parameters a ∅ ["Name"] "ns-e"
           (World tt [])
           (Some {| Parameters := None; other_keys := {[ "StackName" ]} |}) tt).
  - compute_done.
  - reflexivity.
  - right. eexists. split; [reflexivity|]. right. reflexivity.
Defined.

(** ** Building the parameters *)

Lemma build_parameters_unfold {W} (a : Action W) (stack : Stack) (w : world W) :
  build_parameters a stack w =
    match _handle_missing_parameters a
            (_resolve_parameters (parameter_values stack) (blueprint stack))
            (map_to_list (required_parameter_definitions stack)).*1
            (fqn stack) w with
    | (Return items, w') => (Return (submitted_param <$> items), w')
    | (Raise e, w') => (Raise e, w')
    end.
Proof.
  unfold build_parameters, bind.
  destruct (_handle_missing_parameters a _ _ _ w) as [[e|items] w']; done.
Qed.

(** The fallback logs nothing, or one [get_stack] call. *)
Lemma handle_missing_parameters_calls {W} (a : Action W)
    (M : gmap string pyval) (R : list string) (stack_name : string)
    (w : world W) :
  let w' := (_handle_missing_parameters a M R stack_name w).2 in
  calls w' = calls w ∨ calls w' = calls w ++ [CallGetStack stack_name].
Proof.
  unfold _handle_missing_parameters.
  destruct (missing_of R M) as [|p l]; [by left|].
  right. unfold bind, try_except, external.
  destruct (get_stack (provider a) stack_name (remote w)) as [[e|E] s'].
  - destruct e; try done.
    unfold ret at 1. by destruct (missing_of R M).
  - unfold ret at 1.
    match goal with |- context [missing_of R ?m] =>
      by destruct (missing_of R m) end.
Qed.

Lemma build_parameters_calls {W} (a : Action W) (stack : Stack) (w : world W) :
  let w' := (build_parameters a stack w).2 in
  calls w' = calls w ∨ calls w' = calls w ++ [CallGetStack (fqn stack)].
Proof.
  cbv zeta. rewrite build_parameters_unfold.
  pose proof (handle_missing_parameters_calls a
                (_resolve_parameters (parameter_values stack) (blueprint stack))
                (map_to_list (required_parameter_definitions stack)).*1
                (fqn stack) w) as H.
  cbv zeta in H.
  destruct (_handle_missing_parameters a _ _ _ w) as [[e|items] w']; done.
Qed.

(** C9: [build_parameters] hands each pair of the fallback's result over with
    the key as it is and the value put through [str()]; it raises what the
    fallback raises. So every value of a list it returns is a string, an
    integer value included ([str(42)] is ['42']). *)
Theorem build_parameters_str {W} (a : Action W) (stack : Stack) (w : world W) :
  let resolved :=
    _resolve_parameters (parameter_values stack) (blueprint stack) in
  let required := (map_to_list (required_parameter_definitions stack)).*1 in
  let fallback := _handle_missing_parameters a resolved required (fqn stack) w in
  build_parameters a stack w =
    (match fallback.1 with
     | Return items =>
         Return ((λ p : string * pyval, CfParam p.1 (PStr (py_str p.2)))
                   <$> items)
     | Raise e => Raise e
     end, fallback.2) ∧
  (∀ out w', build_parameters a stack w = (Return out, w') →
     Forall (λ p, ∃ s, ParameterValue p = PStr s) out).
Proof.
  intros resolved required fallback. split.
  - rewrite build_parameters_unfold. fold resolved required fallback.
    by destruct fallback as [[e|items] w'].
  - intros out w'. rewrite build_parameters_unfold.
    fold resolved required fallback.
    destruct fallback as [[e|items] w'']; [done|].
    intros [= <- _]. apply Forall_fmap, Forall_forall. intros p _.
    by exists (py_str p.2).
Qed.

Lemma build_parameters_str_witness :
  let stack :=
    Sim.sim_stack "db" ["Size"; "Port"; "Multi"]
      [("Port", PInt 5432); ("Multi", PBool true)] ["Size"] [] false false true in
  let st : Sim.state := {[ "ns-db" := ("u", [CfParam "Size" (PInt 4)]) ]} in
  ∃ out w',
    build_parameters (Sim.sim_action [] []) stack (Sim.start st)
      = (Return out, w') ∧
    CfParam "Port" (PStr "5432") ∈ out ∧
    CfParam "Size" (PStr "4") ∈ out ∧
    CfParam "Multi" (PStr "true") ∈ out ∧
    Forall (λ p, ∃ s, ParameterValue p = PStr s) out.
Proof.
  intros stack st.
  destruct (build_parameters (Sim.sim_action [] []) stack (Sim.start st))
    as [[e|out] w'] eqn:Hrun; [by vm_compute in Hrun|].
  exists out, w'. split; [done|].
  pose proof (proj2 (build_parameters_str (Sim.sim_action [] []) stack
                       (Sim.start st)) out w' Hrun) as Hstr.
  vm_compute in Hrun. injection Hrun as <- _.
  repeat split; [apply list_elem_of_In; vm_compute; tauto ..|exact Hstr].
Defined.

(** ** Launching one stack *)

(** An enabled stack whose resolve, template push and parameter building
    return reaches the update gate in the world the parameter building
    left. *)
Lemma launch_after_steps {W} (a : Action W) (stack : Stack) (w : world W)
    (values : gmap string pyval) (s1 : W) (url : string) (s2 : W)
    (params : list cf_param) (w3 : world W) :
  enabled stack = true →
  stack_resolve a stack (remote w) = (Return values, s1) →
  s3_stack_push a (blueprint stack) s1 = (Return url, s2) →
  build_parameters a (resolved_stack stack values) (after_push w stack s2)
    = (Return params, w3) →
  _launch_stack a stack w =
    if should_update stack
    then update_or_create a (resolved_stack stack values) url params
           (_build_stack_tags a (resolved_stack stack values)) w3
    else (Return NotUpdatedStatus, w3).
Proof.
  intros Hen Hres Hpush Hbuild.
  unfold _launch_stack, should_submit. rewrite Hen. cbn [negb].
  unfold bind at 1. unfold external at 1. rewrite Hres.
  unfold bind at 1. unfold external at 1. cbn [remote resolved_stack blueprint].
  rewrite Hpush.
  unfold bind at 1. cbn [calls]. rewrite <- app_assoc. cbn [app].
  unfold after_push in Hbuild. cbn [fqn resolved_stack] in *.
  rewrite Hbuild.
  change (should_update (resolved_stack stack values)) with (should_update stack).
  destruct (should_update stack); reflexivity.
Qed.

(** The outcomes of the [try] statement, by what the provider's update
    does. *)
Lemma update_or_create_run {W} (a : Action W) (stack : Stack) (url : string)
    (params : list cf_param) (tags : list cf_tag) (w3 : world W) :
  let upd := CallUpdateStack (fqn stack) url params tags in
  let crt := CallCreateStack (fqn stack) url params tags in
  update_or_create a stack url params tags w3 =
    match update_stack (provider a) (fqn stack) url params tags (remote w3) with
    | (Return _, s4) =>
        (Return (SubmittedStatus "UPDATING_STACK"), World s4 (calls w3 ++ [upd]))
    | (Raise StackDidNotChange, s4) =>
        (Return DidNotChangeStatus, World s4 (calls w3 ++ [upd]))
    | (Raise StackDoesNotExist, s4) =>
        match create_stack (provider a) (fqn stack) url params tags s4 with
        | (Return _, s5) =>
            (Return (SubmittedStatus "CREATE_STACK"),
             World s5 (calls w3 ++ [upd; crt]))
        | (Raise e, s5) => (Raise e, World s5 (calls w3 ++ [upd; crt]))
        end
    | (Raise e, s4) => (Raise e, World s4 (calls w3 ++ [upd]))
    end.
Proof.
  intros upd crt. unfold update_or_create, try_except, bind, external.
  destruct (update_stack (provider a) (fqn stack) url params tags (remote w3))
    as [[e|[]] s4]; [|done].
  destruct e; try done.
  cbn [remote calls]. rewrite <- app_assoc. cbn [app].
  by destruct (create_stack (provider a) (fqn stack) url params tags s4)
    as [[e|[]] s5].
Qed.

(** C6: a disabled stack is answered with [NotSubmittedStatus] at once, in
    the world the launch started in: the remote state is untouched and the
    call log has no new entry, so neither resolve, nor the template push, nor
    [get_stack], nor create or update was called. *)
Theorem launch_disabled {W} (a : Action W) (stack : Stack) (w : world W) :
  enabled stack = false →
  _launch_stack a stack w = (Return NotSubmittedStatus, w).
Proof.
  intros Hen. unfold _launch_stack, should_submit. by rewrite Hen.
Qed.

Lemma launch_disabled_witness :
  let stack := Sim.sim_stack "vpc" ["Size"] [] ["Size"] [] false false false in
  let w := Sim.start {[ "ns-vpc" := ("u", []) ]} in
  enabled stack = false ∧
  _launch_stack (Sim.sim_action [stack] []) stack w
    = (Return NotSubmittedStatus, w).
Proof.
  intros stack w. split; [reflexivity|].
  apply launch_disabled. reflexivity.
Defined.

(** C1: for an enabled stack that is not locked or is in the force list, once
    resolve, template push and parameter building have returned, the launch
    calls the provider's update first. If the update returns, the status is
    [SubmittedStatus "UPDATING_STACK"]; if it raises [StackDidNotChange], the
    status is [DidNotChangeStatus] and nothing is raised; if it raises
    [StackDoesNotExist], create is called next and the status is
    [SubmittedStatus "CREATE_STACK"] when create returns (what create raises
    leaves the launch); any other exception of the update leaves the launch
    and create is not called. *)
Theorem launch_update_first {W} (a : Action W) (stack : Stack) (w : world W)
    (values : gmap string pyval) (s1 : W) (url : string) (s2 : W)
    (params : list cf_param) (w3 : world W) :
  enabled stack = true →
  locked stack = false ∨ force stack = true →
  stack_resolve a stack (remote w) = (Return values, s1) →
  s3_stack_push a (blueprint stack) s1 = (Return url, s2) →
  build_parameters a (resolved_stack stack values) (after_push w stack s2)
    = (Return params, w3) →
  let tags := _build_stack_tags a (resolved_stack stack values) in
  let upd := CallUpdateStack (fqn stack) url params tags in
  let crt := CallCreateStack (fqn stack) url params tags in
  let update := update_stack (provider a) (fqn stack) url params tags in
  let create := create_stack (provider a) (fqn stack) url params tags in
  let launch := _launch_stack a stack w in
  (∀ s4, update (remote w3) = (Return tt, s4) →
     launch = (Return (SubmittedStatus "UPDATING_STACK"),
               World s4 (calls w3 ++ [upd]))) ∧
  (∀ s4, update (remote w3) = (Raise StackDidNotChange, s4) →
     launch = (Return DidNotChangeStatus, World s4 (calls w3 ++ [upd]))) ∧
  (∀ s4 s5, update (remote w3) = (Raise StackDoesNotExist, s4) →
     create s4 = (Return tt, s5) →
     launch = (Return (SubmittedStatus "CREATE_STACK"),
               World s5 (calls w3 ++ [upd; crt]))) ∧
  (∀ s4 s5 e, update (remote w3) = (Raise StackDoesNotExist, s4) →
     create s4 = (Raise e, s5) →
     launch = (Raise e, World s5 (calls w3 ++ [upd; crt]))) ∧
  (∀ s4 e, update (remote w3) = (Raise e, s4) →
     e ≠ StackDidNotChange → e ≠ StackDoesNotExist →
     launch = (Raise e, World s4 (calls w3 ++ [upd]))).
Proof.
  intros Hen Hgate Hres Hpush Hbuild tags upd crt update create launch.
  assert (Hlaunch : launch =
            update_or_create a (resolved_stack stack values) url params tags w3).
  { unfold launch.
    rewrite (launch_after_steps a stack w values s1 url s2 params w3) by done.
    unfold should_update. destruct Hgate as [->| ->]; [done|].
    by destruct (locked stack). }
  rewrite Hlaunch, update_or_create_run. cbn [fqn resolved_stack].
  fold tags update create upd crt.
  repeat split.
  - intros s4 ->. done.
  - intros s4 ->. done.
  - intros s4 s5 -> ->. done.
  - intros s4 s5 e -> ->. done.
  - intros s4 e -> Hn1 Hn2. by destruct e.
Qed.

Lemma launch_update_first_witness :
  let stack :=
    Sim.sim_stack "b" ["Size"] [("Size", PStr "4")] ["Size"] ["ns-a"]
      false false true in
  let a := Sim.sim_action [stack] [] in
  let ps := [CfParam "Size" (PStr "4")] in
  let ts := [CfTag "stacker_namespace" "ns"] in
  let upd := CallUpdateStack "ns-b" "https://s3/b" ps ts in
  let crt := CallCreateStack "ns-b" "https://s3/b" ps ts in
  let w_absent := Sim.start ∅ in
  let w_same := Sim.start {[ "ns-b" := ("https://s3/b", ps) ]} in
  let w_old := Sim.start {[ "ns-b" := ("https://s3/old", ps) ]} in
  (_launch_stack a stack w_absent).1 = Return (SubmittedStatus "CREATE_STACK") ∧
  calls (_launch_stack a stack w_absent).2
    = [CallResolve "ns-b"; CallPush "b"; upd; crt] ∧
  (_launch_stack a stack w_same).1 = Return DidNotChangeStatus ∧
  (_launch_stack a stack w_old).1 = Return (SubmittedStatus "UPDATING_STACK") ∧
  calls (_launch_stack a stack w_old).2 = [CallResolve "ns-b"; CallPush "b"; upd].
Proof.
  intros stack a ps ts upd crt w_absent w_same w_old.
  assert (Hrun : ∀ w : world Sim.state,
            calls w = [] →
            build_parameters a (resolved_stack stack (parameter_values stack))
              (after_push w stack (remote w))
              = (Return ps, after_push w stack (remote w))).
  { intros [s cs] Hcs. cbn in Hcs. subst cs. by vm_compute. }
  pose proof (λ w Hw,
    launch_update_first a stack w (parameter_values stack) (remote w)
      "https://s3/b" (remote w) ps (after_push w stack (remote w))
      eq_refl (or_introl eq_refl) eq_refl eq_refl (Hrun w Hw)) as H.
  cbv zeta in H.
  destruct (H w_absent eq_refl) as (_ & _ & Hcreate & _).
  destruct (H w_same eq_refl) as (_ & Hsame & _).
  destruct (H w_old eq_refl) as (Hupdate & _).
  rewrite (Hcreate (remote w_absent) {[ "ns-b" := ("https://s3/b", ps) ]})
    by (by vm_compute).
  rewrite (Hsame (remote w_same)) by (by vm_compute).
  rewrite (Hupdate {[ "ns-b" := ("https://s3/b", ps) ]}) by (by vm_compute).
  repeat split.
Defined.

(** Whatever the earlier steps do, the launch of a stack that is locked and
    not forced logs no create and no update. *)
Lemma launch_locked_no_submit_call {W} (a : Action W) (stack : Stack)
    (w : world W) :
  locked stack = true → force stack = false →
  ∃ new, calls (_launch_stack a stack w).2 = calls w ++ new ∧
         Forall (λ c, is_submit_call c = false) new.
Proof.
  intros Hl Hf. unfold _launch_stack, should_submit.
  destruct (enabled stack); cbn [negb].
  2: { exists []. by rewrite app_nil_r. }
  unfold bind at 1. unfold external at 1.
  destruct (stack_resolve a stack (remote w)) as [[e|values] s1].
  { exists [CallResolve (fqn stack)]. split; [done|]. by repeat constructor. }
  unfold bind at 1. unfold external at 1. cbn [remote calls].
  destruct (s3_stack_push a (blueprint (resolved_stack stack values)) s1)
    as [[e|url] s2].
  { eexists [_; _]. rewrite <- app_assoc. split; [done|]. by repeat constructor. }
  unfold bind at 1.
  match goal with |- context [build_parameters a ?st ?w2] =>
    pose proof (build_parameters_calls a st w2) as Hcalls;
    destruct (build_parameters a st w2) as [[e|params] w3]
  end; cbv zeta in Hcalls; cbn [snd calls] in Hcalls;
    rewrite <- app_assoc in Hcalls; cbn [app] in Hcalls.
  - destruct Hcalls as [Hc|Hc]; cbn [snd].
    + eexists [_; _]. split; [exact Hc|]. by repeat constructor.
    + rewrite <- app_assoc in Hc. eexists [_; _; _].
      split; [exact Hc|]. by repeat constructor.
  - unfold should_update. cbn [locked force resolved_stack].
    rewrite Hl, Hf. cbn [negb snd ret].
    destruct Hcalls as [Hc|Hc].
    + eexists [_; _]. split; [exact Hc|]. by repeat constructor.
    + rewrite <- app_assoc in Hc. eexists [_; _; _].
      split; [exact Hc|]. by repeat constructor.
Qed.

Lemma update_or_create_calls {W} (a : Action W) (stack : Stack) (url : string)
    (params : list cf_param) (tags : list cf_tag) (w3 : world W) :
  ∃ rest, calls (update_or_create a stack url params tags w3).2
          = calls w3 ++ CallUpdateStack (fqn stack) url params tags :: rest.
Proof.
  rewrite update_or_create_run. cbv zeta.
  destruct (update_stack (provider a) (fqn stack) url params tags (remote w3))
    as [[e|[]] s4]; [|by exists []].
  destruct e; try (by exists []).
  destruct (create_stack (provider a) (fqn stack) url params tags s4)
    as [[e|[]] s5]; by eexists [_].
Qed.

(** C5, the claim as it is written, fails on a stack that is locked, not
    forced and disabled: the submission gate comes first and the status is
    [NotSubmittedStatus]. *)
Lemma launch_locked_disabled_counterexample :
  let stack := Sim.sim_stack "c" [] [] [] [] true false false in
  let a := Sim.sim_action [stack] [] in
  let w := Sim.start {[ "ns-c" := ("https://s3/c", []) ]} in
  locked stack = true ∧ force stack = false ∧
  _launch_stack a stack w = (Return NotSubmittedStatus, w) ∧
  ∀ w', _launch_stack a stack w ≠ (Return NotUpdatedStatus, w').
Proof.
  intros stack a w. repeat split. intros w' H. vm_compute in H. discriminate.
Qed.

(** C5, amended: a stack that is locked and not in the force list never has
    create or update called, whatever the earlier steps do. If it is enabled
    and resolve, template push and parameter building return, the launch
    returns [NotUpdatedStatus] in the world the parameter building left, so
    the gate comes after those steps. If the stack is locked, in the force
    list and enabled, and those steps return, the launch goes on to call
    update. A locked stack that is disabled gets [NotSubmittedStatus] at the
    submission gate. *)
Theorem launch_update_gate {W} (a : Action W) (stack : Stack) (w : world W) :
  locked stack = true →
  (force stack = false →
     ∃ new, calls (_launch_stack a stack w).2 = calls w ++ new ∧
            Forall (λ c, is_submit_call c = false) new) ∧
  (enabled stack = true →
     ∀ values s1 url s2 params w3,
       stack_resolve a stack (remote w) = (Return values, s1) →
       s3_stack_push a (blueprint stack) s1 = (Return url, s2) →
       build_parameters a (resolved_stack stack values) (after_push w stack s2)
         = (Return params, w3) →
       (force stack = false →
          _launch_stack a stack w = (Return NotUpdatedStatus, w3)) ∧
       (force stack = true →
          ∃ rest,
            calls (_launch_stack a stack w).2
              = calls w3 ++
                CallUpdateStack (fqn stack) url params
                  (_build_stack_tags a (resolved_stack stack values)) :: rest)) ∧
  (enabled stack = false →
     _launch_stack a stack w = (Return NotSubmittedStatus, w)).
Proof.
  intros Hl. split; [|split].
  - intros Hf. by apply launch_locked_no_submit_call.
  - intros Hen values s1 url s2 params w3 Hres Hpush Hbuild.
    rewrite (launch_after_steps a stack w values s1 url s2 params w3) by done.
    unfold should_update. rewrite Hl. split; intros ->; cbn [negb].
    + done.
    + apply (update_or_create_calls a (resolved_stack stack values)).
  - intros Hen. unfold _launch_stack, should_submit. by rewrite Hen.
Qed.

Lemma launch_update_gate_witness :
  let stack :=
    Sim.sim_stack "c" ["Size"] [] ["Size"] [] true false true in
  let a := Sim.sim_action [stack] [] in
  let st : Sim.state := {[ "ns-c" := ("https://s3/old", [CfParam "Size" (PStr "4")]) ]} in
  locked stack = true ∧
  _launch_stack a stack (Sim.start st)
    = (Return NotUpdatedStatus,
       World st [CallResolve "ns-c"; CallPush "c"; CallGetStack "ns-c"]).
Proof.
  intros stack a st. split; [reflexivity|].
  destruct (launch_update_gate a stack (Sim.start st) eq_refl) as (_ & Hgate & _).
  destruct (Hgate eq_refl (parameter_values stack) st "https://s3/c" st
              [CfParam "Size" (PStr "4")]
              (World st [CallResolve "ns-c"; CallPush "c"; CallGetStack "ns-c"])
              eq_refl eq_refl) as [Hnot _]; [by vm_compute|].
  apply Hnot. reflexivity.
Defined.

(** An enabled stack that is locked and not forced does not reach the gate
    when the parameter building raises: a required parameter that is neither
    supplied nor deployed ends the launch with the exception. *)
Example launch_locked_missing_parameter :
  let stack := Sim.sim_stack "e" ["Name"] [] ["Name"] [] true false true in
  _launch_stack (Sim.sim_action [stack] []) stack (Sim.start ∅)
    = (Raise (MissingParameterException ["Name"]),
       World ∅ [CallResolve "ns-e"; CallPush "e"; CallGetStack "ns-e"]).
Proof. by vm_compute. Qed.

(** ** The hook stages *)

(** Closes the cases of a hook stage that are decided by the mode or by the
    configured list alone; [Hno] says that a call log is not its own
    extension. *)
Ltac hook_stage_case Hno :=
  try (intros [? Hcalls]; by destruct (Hno _ Hcalls));
  try (intros [[? ?] (? & ? & ?)]; discriminate);
  try (intros Hmode; first [done|by destruct Hmode]);
  try (intros ? ? ? [= <-] ?; done);
  try (intros ? ? ? [=] ?).

Lemma hook_stage_run {W} (a : Action W) (stage : string) (outline : bool)
    (dump : pyval) (w : world W) :
  let hooks := config (context a) !! stage in
  let out :=
    (if negb outline && negb (py_truthy dump) && hooks_truthy hooks
     then external (CallHandleHooks stage (default [] hooks))
            (handle_hooks a stage (default [] hooks))
     else ret tt) w in
  (hooks_invoked stage w out ↔
     (outline = false ∧ py_truthy dump = false) ∧ configured a stage) ∧
  (¬ (outline = false ∧ py_truthy dump = false) → out = (Return tt, w)) ∧
  (∀ hs, outline = false → py_truthy dump = false → hooks = Some hs →
         hs ≠ [] →
         out = external (CallHandleHooks stage hs) (handle_hooks a stage hs) w).
Proof.
  intros hooks out. subst out hooks. unfold hooks_invoked, configured.
  assert (Hno : ∀ c : call, calls w ≠ calls w ++ [c]).
  { intros c Heq. apply (f_equal (@List.length call)) in Heq.
    rewrite length_app in Heq. cbn in Heq. lia. }
  destruct (config (context a) !! stage) as [hs0|] eqn:Hcfg.
  - destruct outline, (py_truthy dump), hs0 as [|h l]; cbn;
      (split; [split|split]); hook_stage_case Hno.
    + intros _. split; [done|]. by exists h, l.
    + intros _. unfold external.
      destruct (handle_hooks a stage (h :: l) (remote w)). by exists (h :: l).
  - destruct outline, (py_truthy dump); cbn;
      (split; [split|split]); hook_stage_case Hno.
Qed.

(** C8: the pre-build stage calls the hook runner exactly when neither
    [outline] nor [dump] is set and the configuration gives a list with at
    least one hook under ["pre_build"], and then with that list; the
    post-build stage does so under ["post_build"]. With [outline] or [dump]
    set both stages return at once and leave the world as it was. *)
Theorem hooks_execute_mode_only {W} (a : Action W) (outline : bool)
    (dump : pyval) (w : world W) :
  let execute := outline = false ∧ py_truthy dump = false in
  let pre := pre_run a outline dump w in
  let post := post_run a outline dump w in
  (hooks_invoked "pre_build" w pre ↔ execute ∧ configured a "pre_build") ∧
  (hooks_invoked "post_build" w post ↔ execute ∧ configured a "post_build") ∧
  (¬ execute → pre = (Return tt, w) ∧ post = (Return tt, w)) ∧
  (∀ hs, execute → config (context a) !! "pre_build" = Some hs → hs ≠ [] →
         pre = external (CallHandleHooks "pre_build" hs)
                 (handle_hooks a "pre_build" hs) w) ∧
  (∀ hs, execute → config (context a) !! "post_build" = Some hs → hs ≠ [] →
         post = external (CallHandleHooks "post_build" hs)
                  (handle_hooks a "post_build" hs) w).
Proof.
  intros execute pre post.
  destruct (hook_stage_run a "pre_build" outline dump w) as (Hpre & Hpre0 & Hpre1).
  destruct (hook_stage_run a "post_build" outline dump w)
    as (Hpost & Hpost0 & Hpost1).
  split; [exact Hpre|]. split; [exact Hpost|]. split; [|split].
  - intros Hmode. split; [by apply Hpre0|by apply Hpost0].
  - intros hs [Ho Hd] Hcfg Hne. by apply Hpre1.
  - intros hs [Ho Hd] Hcfg Hne. by apply Hpost1.
Qed.

Lemma hooks_execute_mode_only_witness :
  let a := Sim.sim_action [] [("pre_build", ["hooks.keypair"]);
                              ("post_build", [])] in
  let w := Sim.start ∅ in
  pre_run a false (PBool false) w
    = (Return tt, World ∅ [CallHandleHooks "pre_build" ["hooks.keypair"]]) ∧
  pre_run a true (PBool false) w = (Return tt, w) ∧
  pre_run a false (PStr "/tmp/dump") w = (Return tt, w) ∧
  post_run a false (PBool false) w = (Return tt, w) ∧
  ¬ hooks_invoked "post_build" w (post_run a false (PBool false) w).
Proof.
  intros a w.
  pose proof (hooks_execute_mode_only a false (PBool false) w) as Hexec.
  pose proof (hooks_execute_mode_only a true (PBool false) w) as Hout.
  pose proof (hooks_execute_mode_only a false (PStr "/tmp/dump") w) as Hdump.
  cbv zeta in Hexec, Hout, Hdump.
  destruct Hexec as (_ & Hpost & _ & Hpre & _).
  destruct Hout as (_ & _ & Hout & _).
  destruct Hdump as (_ & _ & Hdump & _).
  split; [|split; [|split; [|split]]].
  - rewrite (Hpre ["hooks.keypair"]); [reflexivity|by split|reflexivity|done].
  - apply Hout. intros [? _]. discriminate.
  - apply Hdump. intros [_ ?]. discriminate.
  - reflexivity.
  - intros Hinv. apply Hpost in Hinv as [_ (h & hs & Hcfg)].
    vm_compute in Hcfg. discriminate.
Defined.

(** ** The plan *)

Lemma od_insert_fresh {A} (k : string) (v : A) (d : list (string * A)) :
  k ∉ d.*1 → od_insert k v d = d ++ [(k, v)].
Proof.
  induction d as [|[k' v'] d IH]; intros Hk; cbn; [done|].
  cbn in Hk. apply not_elem_of_cons in Hk as [Hne Hk].
  rewrite decide_False by done. by rewrite IH.
Qed.

Lemma od_get_app {A} (k : string) (d1 d2 : list (string * A)) :
  od_get k (d1 ++ d2) =
    match od_get k d1 with Some v => Some v | None => od_get k d2 end.
Proof.
  induction d1 as [|[k' v'] d1 IH]; cbn; [done|].
  by destruct (decide (k = k')).
Qed.

Lemma od_get_None {A} (k : string) (d : list (string * A)) :
  k ∉ d.*1 → od_get k d = None.
Proof.
  induction d as [|[k' v'] d IH]; intros Hk; cbn; [done|].
  cbn in Hk. apply not_elem_of_cons in Hk as [Hne Hk].
  rewrite decide_False by done. by apply IH.
Qed.

(** A dictionary filled by a loop [d[key(x)] = val(x)] over a list whose keys
    differ holds [val(x)] under [key(x)] for each [x] of the list. *)
Lemma foldl_insert_lookup_notin {A B} (key : A → string) (val : A → B)
    (l : list A) (acc : gmap string B) (k : string) :
  k ∉ key <$> l →
  foldl (λ d x, <[key x := val x]> d) acc l !! k = acc !! k.
Proof.
  revert acc. induction l as [|y l IH]; intros acc Hk; cbn; [done|].
  cbn in Hk. apply not_elem_of_cons in Hk as [Hne Hk].
  rewrite IH by done. by rewrite lookup_insert_ne.
Qed.

Lemma foldl_insert_lookup {A B} (key : A → string) (val : A → B)
    (l : list A) (acc : gmap string B) (x : A) :
  NoDup (key <$> l) → x ∈ l →
  foldl (λ d x, <[key x := val x]> d) acc l !! key x = Some (val x).
Proof.
  revert acc. induction l as [|y l IH]; intros acc Hnd Hx; cbn.
  - by apply elem_of_nil in Hx.
  - cbn in Hnd. apply NoDup_cons in Hnd as [Hy Hnd].
    apply elem_of_cons in Hx as [->|Hx].
    + rewrite foldl_insert_lookup_notin by done. by rewrite lookup_insert_eq.
    + by apply IH.
Qed.

Lemma get_stacks_dict_lookup (ctx : Context) (stack : Stack) :
  NoDup (fqn <$> get_stacks ctx) → stack ∈ get_stacks ctx →
  get_stacks_dict ctx !! fqn stack = Some stack.
Proof.
  intros Hnd Hin. unfold get_stacks_dict.
  apply (foldl_insert_lookup fqn (λ s, s)); done.
Qed.

Lemma get_dependencies_lookup {W} (a : Action W) (stack : Stack) :
  NoDup (fqn <$> get_stacks (context a)) → stack ∈ get_stacks (context a) →
  _get_dependencies a !! fqn stack = Some (requires stack).
Proof.
  intros Hnd Hin. unfold _get_dependencies.
  apply (foldl_insert_lookup fqn requires); done.
Qed.

Lemma od_get_insert_eq {A} (k : string) (v : A) (d : list (string * A)) :
  od_get k (od_insert k v d) = Some v.
Proof.
  induction d as [|[k' v'] d IH]; cbn.
  - by rewrite decide_True.
  - destruct (decide (k = k')) as [->|Hne]; cbn.
    + by rewrite decide_True.
    + by rewrite decide_False.
Qed.

Lemma od_get_insert_ne {A} (k k' : string) (v : A) (d : list (string * A)) :
  k ≠ k' → od_get k' (od_insert k v d) = od_get k' d.
Proof.
  intros Hne. induction d as [|[k0 v0] d IH]; cbn.
  - by rewrite decide_False.
  - destruct (decide (k = k0)) as [->|Hne0]; cbn.
    + by rewrite !decide_False.
    + destruct (decide (k' = k0)); [done|]. exact IH.
Qed.

(** The loop of [_generate_plan] over names that are all keys of [stacks] and
    differ from each other and from the keys already in the plan: each name
    gets a node at the end of the plan, and the nodes already there stay. *)
Lemma foldl_add_step {W} (a : Action W) (stacks : gmap string Stack)
    (deps : gmap string (gset string)) (order : list string) (plan : Plan W) :
  NoDup ((steps plan).*1 ++ order) →
  (∀ n, n ∈ order → is_Some (stacks !! n)) →
  (∀ n stack, stacks !! n = Some stack → fqn stack = n) →
  ∃ plan',
    foldl (add_step a stacks deps) (Return plan) order = Return plan' ∧
    (steps plan').*1 = (steps plan).*1 ++ order ∧
    (∀ n stack, n ∈ order → stacks !! n = Some stack →
       od_get n (steps plan') =
         Some {| step_stack := stack; run_func := _launch_stack a;
                 step_requires := deps !! n |}) ∧
    (∀ k, k ∈ (steps plan).*1 → od_get k (steps plan') = od_get k (steps plan)) ∧
    plan_description plan' = plan_description plan ∧
    plan_logger_type plan' = plan_logger_type plan ∧
    plan_tail plan' = plan_tail plan.
Proof.
  intros Hnd Hall Hfqn. revert plan Hnd Hall.
  induction order as [|n order IH]; intros plan Hnd Hall.
  - exists plan. cbn. rewrite app_nil_r. repeat split; try done.
    intros n stack Hn. by apply elem_of_nil in Hn.
  - destruct (Hall n) as [stack Hstack]; [apply elem_of_cons; by left|].
    pose proof (Hfqn n stack Hstack) as Hname.
    apply NoDup_app in Hnd as (Hnd1 & Hdisj & Hnd2).
    apply NoDup_cons in Hnd2 as [Hn Hnd2].
    assert (Hfresh : n ∉ (steps plan).*1).
    { intros Hin. apply (Hdisj n Hin), elem_of_cons. by left. }
    assert (Hkeys1 : (steps (plan_add plan stack (_launch_stack a) (deps !! n))).*1
                     = (steps plan).*1 ++ [n]).
    { cbn [plan_add steps]. rewrite Hname, od_insert_fresh by done.
      by rewrite fmap_app. }
    destruct (IH (plan_add plan stack (_launch_stack a) (deps !! n)))
      as (plan' & Hrun & Hkeys & Hget & Hold & Hd & Hl & Ht).
    { rewrite Hkeys1. apply NoDup_app. split; [|split; [|done]].
      - apply NoDup_app. split; [done|]. split; [|apply NoDup_singleton].
        intros x Hx Hx'. apply list_elem_of_singleton in Hx' as ->. done.
      - intros x [Hx|Hx]%elem_of_app Hx'.
        + apply (Hdisj x Hx), elem_of_cons. by right.
        + apply list_elem_of_singleton in Hx as ->. done. }
    { intros m Hm. apply Hall, elem_of_cons. by right. }
    exists plan'. split; [|split; [|split; [|split]]].
    + cbn [foldl]. unfold add_step at 2. by rewrite Hstack.
    + rewrite Hkeys, Hkeys1. by rewrite <- app_assoc.
    + intros m stack' [->|Hm]%elem_of_cons Hm'.
      * rewrite Hstack in Hm'. injection Hm' as <-.
        rewrite Hold by (rewrite Hkeys1, elem_of_app, list_elem_of_singleton; by right).
        cbn [plan_add steps]. rewrite Hname. apply od_get_insert_eq.
      * by apply Hget.
    + intros k Hk.
      rewrite Hold by (rewrite Hkeys1, elem_of_app; by left).
      cbn [plan_add steps]. rewrite Hname. apply od_get_insert_ne.
      by intros ->.
    + cbn in Hd, Hl, Ht. done.
Qed.

Lemma foldl_insert_key {A} (key : A → string) (l : list A)
    (acc : gmap string A) :
  (∀ k x, acc !! k = Some x → key x = k) →
  ∀ k x, foldl (λ d x, <[key x := x]> d) acc l !! k = Some x → key x = k.
Proof.
  revert acc. induction l as [|y l IH]; intros acc Hacc k x; cbn; [apply Hacc|].
  apply IH. intros k' x'. destruct (decide (key y = k')) as [<-|Hne].
  - rewrite lookup_insert_eq. by intros [= <-].
  - rewrite lookup_insert_ne by done. apply Hacc.
Qed.

Lemma get_stacks_dict_key (ctx : Context) (n : string) (stack : Stack) :
  get_stacks_dict ctx !! n = Some stack → fqn stack = n.
Proof.
  unfold get_stacks_dict. apply (foldl_insert_key fqn).
  intros k x. by rewrite lookup_empty.
Qed.

(** C7: when the stacks of the build have different fully-qualified names
    and the execution order lists each of these names once,
    [_generate_plan] returns a plan whose keys are the names in that order,
    one node per stack; the node under a stack's name carries that stack,
    [_launch_stack] as run function and the stack's [requires] as the names
    required before it. *)
Theorem generate_plan_nodes {W} (a : Action W) (tail : bool) :
  let stacks := get_stacks (context a) in
  let order := get_stack_execution_order a (_get_dependencies a) in
  NoDup (fqn <$> stacks) →
  order ≡ₚ fqn <$> stacks →
  ∃ plan,
    _generate_plan a tail = Return plan ∧
    (steps plan).*1 = order ∧
    NoDup (steps plan).*1 ∧
    (steps plan).*1 ≡ₚ fqn <$> stacks ∧
    ∀ stack, stack ∈ stacks →
      od_get (fqn stack) (steps plan) =
        Some {| step_stack := stack;
                run_func := _launch_stack a;
                step_requires := Some (requires stack) |}.
Proof.
  intros stacks order Hnd Hperm.
  assert (Hnd_order : NoDup order) by (by rewrite Hperm).
  assert (Hin_order : ∀ n, n ∈ order → ∃ stack, stack ∈ stacks ∧ n = fqn stack).
  { intros n Hn. rewrite Hperm in Hn.
    apply list_elem_of_fmap in Hn as (stack & -> & Hstack). eauto. }
  destruct (foldl_add_step a (get_stacks_dict (context a)) (_get_dependencies a)
              order
              {| plan_description := "Create/Update stacks";
                 plan_logger_type := logger_type (context a);
                 plan_tail := tail;
                 poll_func := poll_events (provider a);
                 steps := [] |})
    as (plan & Hrun & Hkeys & Hget & _).
  { done. }
  { intros n (stack & Hstack & ->)%Hin_order.
    exists stack. by apply get_stacks_dict_lookup. }
  { apply get_stacks_dict_key. }
  cbn in Hkeys.
  exists plan. split; [exact Hrun|]. split; [exact Hkeys|].
  split; [by rewrite Hkeys|]. split; [by rewrite Hkeys|].
  intros stack Hstack.
  rewrite (Hget (fqn stack) stack).
  - by rewrite get_dependencies_lookup.
  - rewrite Hperm. by apply list_elem_of_fmap_2.
  - by apply get_stacks_dict_lookup.
Qed.

Lemma generate_plan_nodes_witness :
  let vpc := Sim.sim_stack "vpc" [] [] [] [] false false true in
  let db := Sim.sim_stack "db" ["Size"] [] ["Size"] ["ns-vpc"] true false true in
  let a := Sim.sim_action [vpc; db] [] in
  ∃ plan,
    _generate_plan a false = Return plan ∧
    (steps plan).*1 ≡ₚ ["ns-vpc"; "ns-db"] ∧
    od_get "ns-db" (steps plan) =
      Some {| step_stack := db;
              run_func := _launch_stack a;
              step_requires := Some {[ "ns-vpc" ]} |} ∧
    od_get "ns-vpc" (steps plan) =
      Some {| step_stack := vpc;
              run_func := _launch_stack a;
              step_requires := Some ∅ |}.
Proof.
  intros vpc db a.
  destruct (generate_plan_nodes a false) as (plan & Hrun & _ & _ & Hkeys & Hget).
  - compute_done.
  - compute_done.
  - exists plan. split; [exact Hrun|]. split; [exact Hkeys|]. split.
    + apply (Hget db). apply list_elem_of_In. cbn. auto.
    + apply (Hget vpc). apply list_elem_of_In. cbn. auto.
Defined.

(** * Further properties *)

(** ** The parameter resolver, continued *)

(** X1: resolving is idempotent: a resolved map put through
    [_resolve_parameters] again, against the same blueprint, comes back
    unchanged. *)
Theorem resolve_parameters_idempotent (P : gmap string pyval) (bp : Blueprint) :
  _resolve_parameters (_resolve_parameters P bp) bp = _resolve_parameters P bp.
Proof.
  apply map_eq. intros k. rewrite !resolve_parameters_lookup.
  destruct (P !! k) as [v|]; cbn; [|done].
  unfold kept. destruct (bool_decide (k ∈ dom (get_parameter_definitions bp)))
    eqn:Hk; cbn; [|done].
  destruct v as [|b|z|s]; cbn; by rewrite ?Hk.
Qed.

(** X2: resolving is monotone: supplying more parameters leaves the resolved
    value of every parameter already supplied as it was. *)
Theorem resolve_parameters_mono (P Q : gmap string pyval) (bp : Blueprint) :
  P ⊆ Q → _resolve_parameters P bp ⊆ _resolve_parameters Q bp.
Proof.
  intros Hsub. apply map_subseteq_spec. intros k v.
  rewrite !resolve_parameters_lookup.
  destruct (P !! k) as [v0|] eqn:HP; cbn; [|done].
  by rewrite (lookup_weaken P Q k v0 HP Hsub).
Qed.

Lemma resolve_parameters_mono_witness :
  let bp := Sim.sim_blueprint "db" ["Flag"; "Port"] in
  let P : gmap string pyval := {[ "Flag" := PBool false ]} in
  let Q : gmap string pyval := <[ "Port" := PInt 5432 ]> P in
  P ⊆ Q ∧ _resolve_parameters P bp ⊆ _resolve_parameters Q bp.
Proof.
  intros bp P Q.
  assert (Hsub : P ⊆ Q) by (apply insert_subseteq; reflexivity).
  split; [exact Hsub|]. by apply resolve_parameters_mono.
Defined.

(** ** The missing-parameter fallback, continued *)

(** The map the fallback hands back when it returns. *)
Lemma handle_missing_parameters_returns {W} (a : Action W)
    (M : gmap string pyval) (R : list string) (stack_name : string)
    (w w' : world W) (items : list (string * pyval)) :
  _handle_missing_parameters a M R stack_name w = (Return items, w') →
  ∃ sp : gmap string pyval,
    let M' := foldl (fill_from sp) M (missing_of R M) in
    items = map_to_list M' ∧ missing_of R M' = [].
Proof.
  intros Hrun.
  destruct (missing_of R M) as [|p l] eqn:Hm.
  - exists ∅. cbn. unfold _handle_missing_parameters in Hrun.
    rewrite Hm in Hrun. injection Hrun as <- _. done.
  - assert (Hne : missing_of R M ≠ []) by (by rewrite Hm).
    rewrite <- Hm.
    destruct (get_stack (provider a) stack_name (remote w)) as [[e|E] s'] eqn:Hget.
    + assert (He : e = StackDoesNotExist ∨ e ≠ StackDoesNotExist)
        by (destruct e; first [by left|by right]).
      destruct He as [->|Hother].
      * rewrite (handle_missing_after_fetch a M R stack_name w _ None s' Hne Hget
                   (or_intror (conj eq_refl eq_refl))) in Hrun.
        exists (fallback_values None). cbv zeta in *.
        destruct (missing_of R (foldl _ _ _)); [|discriminate].
        by injection Hrun as <- _.
      * exfalso. unfold _handle_missing_parameters in Hrun.
        rewrite Hm in Hrun. unfold bind, try_except, external in Hrun.
        rewrite Hget in Hrun. by destruct e.
    + rewrite (handle_missing_after_fetch a M R stack_name w _ E s' Hne Hget
                 (or_introl eq_refl)) in Hrun.
      exists (fallback_values E). cbv zeta in *.
      destruct (missing_of R (foldl _ _ _)); [|discriminate].
      by injection Hrun as <- _.
Qed.

(** X3: whenever the fallback returns, its list has each key once, holds
    every required name, holds every pair of the resolved map as it was (a
    value supplied is never replaced by a deployed one), and has no key that
    is neither in the resolved map nor required. *)
Theorem handle_missing_parameters_complete {W} (a : Action W)
    (M : gmap string pyval) (R : list string) (stack_name : string)
    (w w' : world W) (items : list (string * pyval)) :
  _handle_missing_parameters a M R stack_name w = (Return items, w') →
  NoDup items.*1 ∧
  (∀ k, k ∈ R → k ∈ items.*1) ∧
  (∀ k v, M !! k = Some v → (k, v) ∈ items) ∧
  (∀ k, k ∈ items.*1 → k ∈ dom M ∨ k ∈ R).
Proof.
  intros (sp & Hitems & Hnil)%handle_missing_parameters_returns.
  cbv zeta in *. subst items.
  set (M' := foldl (fill_from sp) M (missing_of R M)) in *.
  assert (HM' : ∀ k, M' !! k = match M !! k with
                               | Some v => Some v
                               | None => if decide (k ∈ R) then sp !! k else None
                               end)
    by (intros; apply fallback_fill_lookup).
  split; [apply NoDup_fst_map_to_list|]. split; [|split].
  - intros k Hk.
    destruct (M' !! k) as [v|] eqn:Hv.
    + apply list_elem_of_fmap. exists (k, v). split; [done|].
      by apply elem_of_map_to_list.
    + assert (Hin : k ∈ missing_of R M') by (by apply elem_of_missing_of).
      rewrite Hnil in Hin. by apply elem_of_nil in Hin.
  - intros k v Hk. apply elem_of_map_to_list. by rewrite HM', Hk.
  - intros k [[k' v] [-> Hkv]]%list_elem_of_fmap. cbn.
    apply elem_of_map_to_list in Hkv. rewrite HM' in Hkv.
    destruct (M !! k') as [v0|] eqn:HM; [left; by apply elem_of_dom_2 in HM|].
    destruct (decide (k' ∈ R)); [by right|done].
Qed.

Lemma handle_missing_parameters_complete_witness :
  let M : gmap string pyval := {[ "Port" := PInt 5432 ]} in
  let st : Sim.state :=
    {[ "ns-db" := ("u", [CfParam "Size" (PStr "4"); CfParam "Port" (PStr "1")]) ]} in
  ∃ items w',
    _handle_missing_parameters (Sim.sim_action [] []) M ["Size"; "Port"] "ns-db"
      (Sim.start st) = (Return items, w') ∧
    ("Port", PInt 5432) ∈ items ∧ "Size" ∈ items.*1 ∧ NoDup items.*1.
Proof.
  intros M st.
  destruct (_handle_missing_parameters (Sim.sim_action [] []) M ["Size"; "Port"]
              "ns-db" (Sim.start st)) as [[e|items] w'] eqn:Hrun;
    [by vm_compute in Hrun|].
  exists items, w'. split; [done|].
  destruct (handle_missing_parameters_complete _ _ _ _ _ _ _ Hrun)
    as (Hnd & Hreq & Hkeep & _).
  split; [by apply Hkeep|]. split; [|done].
  apply Hreq, list_elem_of_In. cbn. auto.
Defined.

(** X4: an exception of [get_stack] other than [StackDoesNotExist] is not
    caught: with some required name missing, the fallback raises it, after
    the one call, and no [MissingParameterException] is made of it. *)
Theorem handle_missing_parameters_provider_error {W} (a : Action W)
    (M : gmap string pyval) (R : list string) (stack_name : string)
    (w : world W) (e : exn) (s' : W) :
  (list_to_set R ∖ dom M : gset string) ≠ ∅ →
  get_stack (provider a) stack_name (remote w) = (Raise e, s') →
  e ≠ StackDoesNotExist →
  _handle_missing_parameters a M R stack_name w
    = (Raise e, World s' (calls w ++ [CallGetStack stack_name])).
Proof.
  intros Hne%missing_of_nonempty Hget He.
  unfold _handle_missing_parameters.
  destruct (missing_of R M) as [|p l]; [done|].
  unfold bind, try_except, external. rewrite Hget. by destruct e.
Qed.

Lemma handle_missing_parameters_provider_error_witness :
  let a : Action unit :=
    {| context := Sim.sim_context [] [];
       provider :=
         {| get_stack := λ _ s, (Raise (OtherError "Throttling"), s);
            update_stack := λ _ _ _ _ s, (Return tt, s);
            create_stack := λ _ _ _ _ s, (Return tt, s);
            poll_events := λ s, (Return tt, s) |};
       s3_stack_push := λ _ s, (Return "url", s);
       stack_resolve := λ st s, (Return (parameter_values st), s);
       handle_hooks := λ _ _ s, (Return tt, s);
       get_stack_execution_order := λ d, (map_to_list d).*1 |} in
  _handle_missing_parameters a ∅ ["Name"] "ns-e" (World tt [])
    = (Raise (OtherError "Throttling"), World tt ([] ++ [CallGetStack "ns-e"])).
Proof.
  intros a.
  apply (handle_missing_parameters_provider_error a ∅ ["Name"] "ns-e"
           (World tt []) (OtherError "Throttling") tt).
  - compute_done.
  - reflexivity.
  - discriminate.
Defined.

(** ** Building the parameters, continued *)

Lemma elem_of_keys_dom {A} (m : gmap string A) (k : string) :
  k ∈ (map_to_list m).*1 ↔ k ∈ dom m.
Proof.
  rewrite elem_of_dom, list_elem_of_fmap. split.
  - intros [[k' v] [-> Hkv]]. apply elem_of_map_to_list in Hkv. by exists v.
  - intros [v Hv]. exists (k, v). split; [done|]. by apply elem_of_map_to_list.
Qed.

Lemma keys_subseteq_dom {A} (m : gmap string A) (M : gmap string pyval) :
  (list_to_set (map_to_list m).*1 : gset string) ⊆ dom M ↔ dom m ⊆ dom M.
Proof.
  split; intros Hsub k Hk; apply Hsub.
  - by apply elem_of_list_to_set, elem_of_keys_dom.
  - by apply elem_of_list_to_set, elem_of_keys_dom in Hk.
Qed.

Lemma handle_missing_parameters_noop_aux {W} (a : Action W)
    (M : gmap string pyval) (R : list string) (stack_name : string)
    (w : world W) :
  (list_to_set R : gset string) ⊆ dom M →
  _handle_missing_parameters a M R stack_name w = (Return (map_to_list M), w).
Proof.
  intros Hnil%missing_of_nil. unfold _handle_missing_parameters.
  by rewrite Hnil.
Qed.

(** With some required name missing the fallback logs its one call, whatever
    comes of it. *)
Lemma handle_missing_parameters_calls_fetch {W} (a : Action W)
    (M : gmap string pyval) (R : list string) (stack_name : string)
    (w : world W) :
  missing_of R M ≠ [] →
  calls (_handle_missing_parameters a M R stack_name w).2
    = calls w ++ [CallGetStack stack_name].
Proof.
  intros Hne. unfold _handle_missing_parameters.
  destruct (missing_of R M) as [|p l]; [done|].
  unfold bind, try_except, external.
  destruct (get_stack (provider a) stack_name (remote w)) as [[e|E] s'].
  - destruct e; try done.
    unfold ret at 1. by destruct (missing_of R M).
  - unfold ret at 1.
    match goal with |- context [missing_of R ?m] =>
      by destruct (missing_of R m) end.
Qed.

(** The returned list read as a map: what it holds under each key. *)
Lemma handle_missing_parameters_returns_map {W} (a : Action W)
    (M : gmap string pyval) (R : list string) (stack_name : string)
    (w w' : world W) (items : list (string * pyval)) :
  _handle_missing_parameters a M R stack_name w = (Return items, w') →
  ∃ M' : gmap string pyval,
    items = map_to_list M' ∧
    (∀ k, k ∈ R → is_Some (M' !! k)) ∧
    (∀ k v, M !! k = Some v → M' !! k = Some v) ∧
    (∀ k, is_Some (M' !! k) → is_Some (M !! k) ∨ k ∈ R).
Proof.
  intros (sp & Hitems & Hnil)%handle_missing_parameters_returns.
  cbv zeta in *.
  exists (foldl (fill_from sp) M (missing_of R M)).
  split; [done|]. split; [|split].
  - intros k Hk.
    destruct (foldl (fill_from sp) M (missing_of R M) !! k) as [v|] eqn:Hv;
      [by eexists|].
    assert (Hin : k ∈ missing_of R (foldl (fill_from sp) M (missing_of R M)))
      by (by apply elem_of_missing_of).
    rewrite Hnil in Hin. by apply elem_of_nil in Hin.
  - intros k v Hk. by rewrite fallback_fill_lookup, Hk.
  - intros k. rewrite fallback_fill_lookup.
    destruct (M !! k) as [v0|]; [left; by eexists|].
    destruct (decide (k ∈ R)); [by right|]. by intros [? ?].
Qed.

Lemma build_parameters_returns {W} (a : Action W) (stack : Stack)
    (w w' : world W) (out : list cf_param) :
  build_parameters a stack w = (Return out, w') →
  ∃ items,
    _handle_missing_parameters a
      (_resolve_parameters (parameter_values stack) (blueprint stack))
      (map_to_list (required_parameter_definitions stack)).*1
      (fqn stack) w = (Return items, w') ∧
    out = submitted_param <$> items.
Proof.
  rewrite build_parameters_unfold.
  destruct (_handle_missing_parameters a _ _ _ w) as [[e|items] w''];
    [done|].
  intros [= <- <-]. by exists items.
Qed.

Lemma submitted_param_keys (items : list (string * pyval)) :
  ParameterKey <$> (submitted_param <$> items) = items.*1.
Proof. rewrite <- list_fmap_compose. by apply list_fmap_ext. Qed.

(** X5: [build_parameters] asks the provider for the deployed stack exactly
    when a required parameter is missing from the resolved map: with none
    missing it leaves the world as it was, with one missing it makes one
    [get_stack] call for the stack's fully-qualified name and no other
    call. *)
Theorem build_parameters_provider_contact {W} (a : Action W) (stack : Stack)
    (w : world W) :
  let resolved :=
    _resolve_parameters (parameter_values stack) (blueprint stack) in
  let required := dom (required_parameter_definitions stack) in
  (required ⊆ dom resolved → (build_parameters a stack w).2 = w) ∧
  (required ⊈ dom resolved →
     calls (build_parameters a stack w).2
       = calls w ++ [CallGetStack (fqn stack)]).
Proof.
  intros resolved required. rewrite build_parameters_unfold.
  fold resolved. split.
  - intros Hsub%keys_subseteq_dom.
    rewrite (handle_missing_parameters_noop_aux a resolved) by done. done.
  - intros Hnsub.
    assert (Hne : missing_of (map_to_list (required_parameter_definitions stack)).*1
                    resolved ≠ []).
    { intros Hnil%missing_of_nil%keys_subseteq_dom. by apply Hnsub. }
    pose proof (handle_missing_parameters_calls_fetch a resolved _ (fqn stack)
                  w Hne) as Hcalls.
    by destruct (_handle_missing_parameters a resolved _ (fqn stack) w)
      as [[e|items] w'].
Qed.

(** X6: a list [build_parameters] returns names each parameter once, names
    every required parameter, and names no parameter that the blueprint
    neither declares nor requires. *)
Theorem build_parameters_keys {W} (a : Action W) (stack : Stack)
    (w w' : world W) (out : list cf_param) :
  build_parameters a stack w = (Return out, w') →
  NoDup (ParameterKey <$> out) ∧
  (∀ k, k ∈ dom (required_parameter_definitions stack) →
        k ∈ ParameterKey <$> out) ∧
  (∀ p, p ∈ out →
        ParameterKey p ∈ dom (get_parameter_definitions (blueprint stack)) ∨
        ParameterKey p ∈ dom (required_parameter_definitions stack)).
Proof.
  intros (items & Hrun & ->)%build_parameters_returns.
  apply handle_missing_parameters_returns_map in Hrun
    as (M' & -> & Hreq & _ & Hkeys).
  rewrite submitted_param_keys. split; [apply NoDup_fst_map_to_list|]. split.
  - intros k Hk. apply elem_of_keys_dom, elem_of_dom, Hreq.
    by apply elem_of_keys_dom.
  - intros p [[k v] [-> Hkv]]%list_elem_of_fmap. cbn.
    apply elem_of_map_to_list in Hkv.
    destruct (Hkeys k) as [[v0 Hres]|Hk]; [by eexists| |].
    + left. rewrite resolve_parameters_lookup in Hres.
      destruct (parameter_values stack !! k) as [v1|]; cbn in Hres; [|done].
      unfold kept in Hres. case_bool_decide; [done|discriminate].
    + right. by apply elem_of_keys_dom.
Qed.

Lemma build_parameters_keys_witness :
  let stack :=
    Sim.sim_stack "db" ["Port"] [("Port", PInt 5432); ("Extra", PStr "x")]
      ["Size"] [] false false true in
  let st : Sim.state :=
    {[ "ns-db" := ("u", [CfParam "Size" (PStr "4"); CfParam "Old" (PStr "o")]) ]} in
  ∃ out w',
    build_parameters (Sim.sim_action [] []) stack (Sim.start st)
      = (Return out, w') ∧
    NoDup (ParameterKey <$> out) ∧
    "Size" ∈ (ParameterKey <$> out) ∧
    ("Extra" ∉ (ParameterKey <$> out)) ∧
    ("Old" ∉ (ParameterKey <$> out)).
Proof.
  intros stack st.
  destruct (build_parameters (Sim.sim_action [] []) stack (Sim.start st))
    as [[e|out] w'] eqn:Hrun; [by vm_compute in Hrun|].
  exists out, w'. split; [done|].
  destruct (build_parameters_keys _ _ _ _ _ Hrun) as (Hnd & Hreq & Hkeys).
  split; [done|]. split; [apply Hreq; compute_done|].
  split; intros [p [Hp Hin]]%list_elem_of_fmap;
    destruct (Hkeys p Hin) as [Hk|Hk]; rewrite <- Hp in Hk;
    apply (bool_decide_pack _) in Hk; vm_compute in Hk; exact Hk.
Defined.

(** X7: a value supplied for a declared parameter wins over the deployed
    stack: when [build_parameters] returns, a declared parameter supplied
    with a value other than [None] is in the list with that value (a boolean
    in lower case), and no other entry of the list bears its key. *)
Theorem build_parameters_supplied_wins {W} (a : Action W) (stack : Stack)
    (w w' : world W) (out : list cf_param) (k : string) (v : pyval) :
  build_parameters a stack w = (Return out, w') →
  parameter_values stack !! k = Some v →
  k ∈ dom (get_parameter_definitions (blueprint stack)) →
  is_none v = false →
  CfParam k (PStr (submitted_value v)) ∈ out ∧
  ∀ p, p ∈ out → ParameterKey p = k → p = CfParam k (PStr (submitted_value v)).
Proof.
  intros (items & Hrun & ->)%build_parameters_returns Hv Hk Hnone.
  apply handle_missing_parameters_returns_map in Hrun
    as (M' & -> & _ & Hkeep & _).
  set (v' := if is_bool v then PStr (lower (py_str v)) else v).
  assert (Hstr : py_str v' = submitted_value v).
  { unfold v'. destruct v as [|[]|z|s]; done. }
  assert (HM' : M' !! k = Some v').
  { apply Hkeep. rewrite resolve_parameters_lookup, Hv. cbn. unfold kept.
    by rewrite bool_decide_eq_true_2, Hnone. }
  split.
  - apply list_elem_of_fmap. exists (k, v'). split.
    + unfold submitted_param. cbn. by rewrite Hstr.
    + by apply elem_of_map_to_list.
  - intros p [[k0 v0] [-> Hkv]]%list_elem_of_fmap Hkey. cbn in Hkey. subst k0.
    apply elem_of_map_to_list in Hkv. rewrite HM' in Hkv.
    injection Hkv as <-. unfold submitted_param. cbn. by rewrite Hstr.
Qed.

Lemma build_parameters_supplied_wins_witness :
  let stack :=
    Sim.sim_stack "db" ["Size"; "Multi"]
      [("Size", PStr "8"); ("Multi", PBool true)] ["Size"; "Zone"] []
      false false true in
  let st : Sim.state :=
    {[ "ns-db" := ("u", [CfParam "Size" (PStr "4"); CfParam "Zone" (PStr "a");
                         CfParam "Multi" (PStr "false")]) ]} in
  ∃ out w',
    build_parameters (Sim.sim_action [] []) stack (Sim.start st)
      = (Return out, w') ∧
    CfParam "Size" (PStr "8") ∈ out ∧
    CfParam "Multi" (PStr "true") ∈ out.
Proof.
  intros stack st.
  destruct (build_parameters (Sim.sim_action [] []) stack (Sim.start st))
    as [[e|out] w'] eqn:Hrun; [by vm_compute in Hrun|].
  exists out, w'. split; [done|]. split.
  - apply (build_parameters_supplied_wins _ _ _ _ _ "Size" (PStr "8") Hrun);
      [reflexivity|compute_done|reflexivity].
  - apply (build_parameters_supplied_wins _ _ _ _ _ "Multi" (PBool true) Hrun);
      [reflexivity|compute_done|reflexivity].
Defined.

(** X8: a required parameter that the resolver leaves out (it is not
    supplied, or supplied as [None], or not among the blueprint's parameter
    definitions) takes the deployed value: when the provider's description
    holds a value for it and [build_parameters] returns, the list holds the
    parameter with [str()] of the deployed value, and the provider was asked
    once. *)
Theorem build_parameters_deployed_value {W} (a : Action W) (stack : Stack)
    (w w' : world W) (out : list cf_param) (k : string) (v : pyval)
    (d : description) (ps : list cf_param) (s' : W) :
  build_parameters a stack w = (Return out, w') →
  k ∈ dom (required_parameter_definitions stack) →
  (parameter_values stack !! k = None ∨
   parameter_values stack !! k = Some PNone ∨
   k ∉ dom (get_parameter_definitions (blueprint stack))) →
  get_stack (provider a) (fqn stack) (remote w) = (Return (Some d), s') →
  Parameters d = Some ps →
  stack_params_of ps !! k = Some v →
  CfParam k (PStr (py_str v)) ∈ out ∧
  w' = World s' (calls w ++ [CallGetStack (fqn stack)]).
Proof.
  intros (items & Hrun & ->)%build_parameters_returns Hreq Hout Hget Hps Hv.
  set (M := _resolve_parameters (parameter_values stack) (blueprint stack)) in *.
  set (R := (map_to_list (required_parameter_definitions stack)).*1) in *.
  assert (HMk : M !! k = None).
  { unfold M. rewrite resolve_parameters_lookup.
    destruct Hout as [->|[->|Hk]]; cbn.
    - done.
    - unfold kept. by case_bool_decide.
    - destruct (parameter_values stack !! k); cbn; [|done].
      unfold kept. by rewrite bool_decide_eq_false_2. }
  assert (HkR : k ∈ R) by (by apply elem_of_keys_dom).
  assert (Hne : missing_of R M ≠ []).
  { intros Hnil. assert (Hin : k ∈ missing_of R M) by (by apply elem_of_missing_of).
    rewrite Hnil in Hin. by apply elem_of_nil in Hin. }
  rewrite (handle_missing_after_fetch a M R (fqn stack) w _ (Some d) s' Hne Hget
             (or_introl eq_refl)) in Hrun.
  cbv zeta in Hrun.
  assert (Hsp : fallback_values (Some d) = stack_params_of ps).
  { unfold fallback_values, description_truthy, has_Parameters. by rewrite Hps. }
  rewrite Hsp in Hrun.
  destruct (missing_of R (foldl _ _ _)); [|discriminate].
  injection Hrun as <- <-. split; [|done].
  apply list_elem_of_fmap. exists (k, v). split; [done|].
  apply elem_of_map_to_list.
  by rewrite fallback_fill_lookup, HMk, decide_True.
Qed.

Lemma build_parameters_deployed_value_witness :
  let stack :=
    Sim.sim_stack "db" ["Size"] [("Size", PNone)] ["Size"] [] false false true in
  let ps := [CfParam "Size" (PStr "4")] in
  let st : Sim.state := {[ "ns-db" := ("u", ps) ]} in
  ∃ out,
    build_parameters (Sim.sim_action [] []) stack (Sim.start st)
      = (Return out, World st ([] ++ [CallGetStack "ns-db"])) ∧
    CfParam "Size" (PStr "4") ∈ out.
Proof.
  intros stack ps st.
  destruct (build_parameters (Sim.sim_action [] []) stack (Sim.start st))
    as [[e|out] w'] eqn:Hrun; [by vm_compute in Hrun|].
  destruct (build_parameters_deployed_value (Sim.sim_action [] []) stack
              (Sim.start st) w' out "Size" (PStr "4")
              (Sim.describe "ns-db" ps) ps st Hrun) as [Hin ->].
  - compute_done.
  - right. left. reflexivity.
  - reflexivity.
  - reflexivity.
  - reflexivity.
  - exists out. split; [reflexivity|exact Hin].
Defined.

(** ** Launching one stack, continued *)

Lemma launch_resolve_raises {W} (a : Action W) (stack : Stack) (w : world W)
    (e : exn) (s1 : W) :
  enabled stack = true →
  stack_resolve a stack (remote w) = (Raise e, s1) →
  _launch_stack a stack w
    = (Raise e, World s1 (calls w ++ [CallResolve (fqn stack)])).
Proof.
  intros Hen Hres. unfold _launch_stack, should_submit. rewrite Hen. cbn [negb].
  unfold bind at 1. unfold external at 1. by rewrite Hres.
Qed.

Lemma launch_push_raises {W} (a : Action W) (stack : Stack) (w : world W)
    (values : gmap string pyval) (s1 : W) (e : exn) (s2 : W) :
  enabled stack = true →
  stack_resolve a stack (remote w) = (Return values, s1) →
  s3_stack_push a (blueprint stack) s1 = (Raise e, s2) →
  _launch_stack a stack w = (Raise e, after_push w stack s2).
Proof.
  intros Hen Hres Hpush. unfold _launch_stack, should_submit.
  rewrite Hen. cbn [negb].
  unfold bind at 1. unfold external at 1. rewrite Hres.
  unfold bind at 1. unfold external at 1. cbn [remote resolved_stack blueprint].
  rewrite Hpush. cbn [calls]. rewrite <- app_assoc. done.
Qed.

Lemma launch_build_raises {W} (a : Action W) (stack : Stack) (w : world W)
    (values : gmap string pyval) (s1 : W) (url : string) (s2 : W)
    (e : exn) (w3 : world W) :
  enabled stack = true →
  stack_resolve a stack (remote w) = (Return values, s1) →
  s3_stack_push a (blueprint stack) s1 = (Return url, s2) →
  build_parameters a (resolved_stack stack values) (after_push w stack s2)
    = (Raise e, w3) →
  _launch_stack a stack w = (Raise e, w3).
Proof.
  intros Hen Hres Hpush Hbuild. unfold _launch_stack, should_submit.
  rewrite Hen. cbn [negb].
  unfold bind at 1. unfold external at 1. rewrite Hres.
  unfold bind at 1. unfold external at 1. cbn [remote resolved_stack blueprint].
  rewrite Hpush.
  unfold bind at 1. cbn [calls]. rewrite <- app_assoc. cbn [app].
  unfold after_push in Hbuild. cbn [fqn resolved_stack] in *.
  by rewrite Hbuild.
Qed.

(** X9: a step that raises ends the launch of an enabled stack with that
    exception, locked or not, and the later steps are not run: after a
    failed resolve only the resolve is logged; after a failed template push
    only resolve and push; after a failed parameter building (a missing
    parameter, for one) the world is the one the parameter building left,
    without create or update. *)
Theorem launch_step_failure {W} (a : Action W) (stack : Stack) (w : world W) :
  enabled stack = true →
  (∀ e s1,
     stack_resolve a stack (remote w) = (Raise e, s1) →
     _launch_stack a stack w
       = (Raise e, World s1 (calls w ++ [CallResolve (fqn stack)]))) ∧
  (∀ values s1 e s2,
     stack_resolve a stack (remote w) = (Return values, s1) →
     s3_stack_push a (blueprint stack) s1 = (Raise e, s2) →
     _launch_stack a stack w
       = (Raise e,
          World s2 (calls w ++ [CallResolve (fqn stack);
                                CallPush (bp_name (blueprint stack))]))) ∧
  (∀ values s1 url s2 e w3,
     stack_resolve a stack (remote w) = (Return values, s1) →
     s3_stack_push a (blueprint stack) s1 = (Return url, s2) →
     build_parameters a (resolved_stack stack values) (after_push w stack s2)
       = (Raise e, w3) →
     _launch_stack a stack w = (Raise e, w3) ∧
     ∃ new, calls w3 = calls w ++ new ∧
            Forall (λ c, is_submit_call c = false) new).
Proof.
  intros Hen. split; [|split].
  - intros e s1 Hres. by apply launch_resolve_raises.
  - intros values s1 e s2 Hres Hpush.
    by rewrite (launch_push_raises a stack w values s1 e s2).
  - intros values s1 url s2 e w3 Hres Hpush Hbuild.
    split; [by apply (launch_build_raises a stack w values s1 url s2)|].
    pose proof (build_parameters_calls a (resolved_stack stack values)
                  (after_push w stack s2)) as Hcalls.
    cbv zeta in Hcalls. rewrite Hbuild in Hcalls.
    cbn [snd after_push calls] in Hcalls.
    destruct Hcalls as [Hc|Hc]; rewrite Hc.
    + eexists [_; _]. split; [done|]. by repeat constructor.
    + rewrite <- app_assoc. eexists [_; _; _]. split; [done|].
      by repeat constructor.
Qed.

Lemma launch_step_failure_witness :
  let stack := Sim.sim_stack "e" ["Name"] [] ["Name"] [] false false true in
  let a := Sim.sim_action [stack] [] in
  enabled stack = true ∧
  _launch_stack a stack (Sim.start ∅)
    = (Raise (MissingParameterException ["Name"]),
       World ∅ [CallResolve "ns-e"; CallPush "e"; CallGetStack "ns-e"]).
Proof.
  intros stack a. split; [reflexivity|].
  destruct (launch_step_failure a stack (Sim.start ∅) eq_refl) as (_ & _ & Hbuild).
  apply (Hbuild (parameter_values stack) ∅ "https://s3/e" ∅
           (MissingParameterException ["Name"])
           (World ∅ [CallResolve "ns-e"; CallPush "e"; CallGetStack "ns-e"])
           eq_refl eq_refl).
  by vm_compute.
Defined.

(** X10: the calls of one launch. Whatever the collaborators do, a launch
    makes at most one update call and at most one create call; the update
    call is the first create-or-update call, and a create call comes right
    after the update call, the last of the launch, and has the update's
    stack name, template URL, parameters and tags. *)
Theorem launch_calls_shape {W} (a : Action W) (stack : Stack) (w : world W) :
  ∃ pre,
    Forall (λ c, is_submit_call c = false) pre ∧
    (calls (_launch_stack a stack w).2 = calls w ++ pre ∨
     ∃ url ps ts,
       calls (_launch_stack a stack w).2
         = calls w ++ pre ++ [CallUpdateStack (fqn stack) url ps ts] ∨
       calls (_launch_stack a stack w).2
         = calls w ++ pre ++ [CallUpdateStack (fqn stack) url ps ts;
                              CallCreateStack (fqn stack) url ps ts]).
Proof.
  destruct (enabled stack) eqn:Hen.
  2: { exists []. split; [constructor|]. left.
       unfold _launch_stack, should_submit. rewrite Hen. cbn.
       by rewrite app_nil_r. }
  destruct (stack_resolve a stack (remote w)) as [[e|values] s1] eqn:Hres.
  { rewrite (launch_resolve_raises a stack w e s1) by done.
    eexists [_]. split; [|by left]. by repeat constructor. }
  destruct (s3_stack_push a (blueprint stack) s1) as [[e|url] s2] eqn:Hpush.
  { rewrite (launch_push_raises a stack w values s1 e s2) by done.
    eexists [_; _]. split; [|by left]. by repeat constructor. }
  pose proof (build_parameters_calls a (resolved_stack stack values)
                (after_push w stack s2)) as Hcalls.
  cbv zeta in Hcalls.
  destruct (build_parameters a (resolved_stack stack values)
              (after_push w stack s2)) as [[e|ps] w3] eqn:Hbuild;
    cbn [snd after_push calls] in Hcalls.
  { rewrite (launch_build_raises a stack w values s1 url s2 e w3) by done.
    cbn [snd].
    destruct Hcalls as [Hc|Hc]; rewrite Hc.
    - eexists [_; _]. split; [|by left]. by repeat constructor.
    - rewrite <- app_assoc. eexists [_; _; _].
      split; [|by left]. by repeat constructor. }
  rewrite (launch_after_steps a stack w values s1 url s2 ps w3) by done.
  assert (Hpre : ∃ pre, Forall (λ c, is_submit_call c = false) pre ∧
                        calls w3 = calls w ++ pre).
  { destruct Hcalls as [Hc|Hc]; rewrite Hc.
    - eexists [_; _]. split; [|done]. by repeat constructor.
    - rewrite <- app_assoc. eexists [_; _; _].
      split; [|done]. by repeat constructor. }
  destruct Hpre as (pre & Hpre & Hw3). exists pre. split; [exact Hpre|].
  destruct (should_update stack); [|by left].
  right. exists url, ps, (_build_stack_tags a (resolved_stack stack values)).
  rewrite update_or_create_run. cbv zeta. cbn [fqn resolved_stack].
  destruct (update_stack (provider a) (fqn stack) url ps _ (remote w3))
    as [[e|[]] s4]; cbn [snd calls].
  2: { left. by rewrite Hw3, <- app_assoc. }
  destruct e; try (left; by rewrite Hw3, <- app_assoc).
  right.
  destruct (create_stack (provider a) (fqn stack) url ps _ s4) as [[e|[]] s5];
    cbn [snd calls]; by rewrite Hw3, <- app_assoc.
Qed.

(** ** The plan, continued *)

(** A dictionary filled by a loop [d[key(x)] = val(x)]: under each key it
    holds the value of the last element of the list that has the key. *)
Lemma foldl_insert_last {A B} (key : A → string) (val : A → B)
    (l : list A) (acc : gmap string B) (k : string) :
  foldl (λ d x, <[key x := val x]> d) acc l !! k =
    match last (filter (λ x, key x = k) l) with
    | Some x => Some (val x)
    | None => acc !! k
    end.
Proof.
  induction l as [|x l IH] using rev_ind; [done|].
  rewrite foldl_app, filter_app. cbn [foldl].
  destruct (decide (key x = k)) as [Hk|Hk].
  - rewrite (filter_cons_True _ x []) by done. rewrite filter_nil.
    by rewrite last_snoc, Hk, lookup_insert_eq.
  - rewrite (filter_cons_False _ x []) by done. rewrite filter_nil, app_nil_r.
    by rewrite lookup_insert_ne.
Qed.

Lemma last_filter_is_Some {A} (P : A → Prop) `{!∀ x, Decision (P x)}
    (l : list A) :
  is_Some (last (filter P l)) ↔ ∃ x, x ∈ l ∧ P x.
Proof.
  split.
  - intros [x Hx]. apply last_Some_elem_of in Hx.
    apply list_elem_of_filter in Hx as [HP Hin]. eauto.
  - intros (x & Hin & HP).
    destruct (last (filter P l)) as [y|] eqn:Hlast; [by eexists|].
    apply last_None in Hlast.
    assert (Hx : x ∈ filter P l) by (by apply list_elem_of_filter).
    rewrite Hlast in Hx. by apply elem_of_nil in Hx.
Qed.

(** X11: the dependency dictionary has one entry per fully-qualified name of
    the build and no other key; the entry of a name is the [requires] of the
    last stack that bears the name. *)
Theorem get_dependencies_spec {W} (a : Action W) :
  let stacks := get_stacks (context a) in
  (∀ n, _get_dependencies a !! n
        = requires <$> last (filter (λ s, fqn s = n) stacks)) ∧
  dom (_get_dependencies a) = list_to_set (fqn <$> stacks).
Proof.
  intros stacks.
  assert (Hlook : ∀ n, _get_dependencies a !! n
                       = requires <$> last (filter (λ s, fqn s = n) stacks)).
  { intros n. unfold _get_dependencies.
    rewrite (foldl_insert_last fqn requires), lookup_empty.
    by destruct (last _). }
  split; [exact Hlook|].
  apply set_eq. intros n.
  rewrite elem_of_dom, Hlook, fmap_is_Some, elem_of_list_to_set.
  rewrite (last_filter_is_Some (λ s, fqn s = n)), list_elem_of_fmap.
  split; intros (s & H1 & H2); exists s; done.
Qed.

Lemma od_insert_keys_in {A} (k : string) (v : A) (d : list (string * A)) :
  k ∈ d.*1 → (od_insert k v d).*1 = d.*1.
Proof.
  induction d as [|[k' v'] d IH]; intros Hk; cbn.
  - by apply elem_of_nil in Hk.
  - destruct (decide (k = k')) as [->|Hne]; cbn; [done|].
    cbn in Hk. apply elem_of_cons in Hk as [?|Hk]; [done|]. by rewrite IH.
Qed.

Lemma od_insert_keys {A} (k : string) (v : A) (d : list (string * A)) :
  NoDup d.*1 →
  NoDup (od_insert k v d).*1 ∧
  ∀ k', k' ∈ (od_insert k v d).*1 ↔ k' ∈ d.*1 ∨ k' = k.
Proof.
  intros Hnd. destruct (decide (k ∈ d.*1)) as [Hin|Hnin].
  - rewrite od_insert_keys_in by done. split; [done|].
    intros k'. split; [by left|]. by intros [?| ->].
  - rewrite od_insert_fresh, fmap_app by done. cbn. split.
    + apply NoDup_app. split; [done|]. split; [|apply NoDup_singleton].
      intros x Hx ->%list_elem_of_singleton. done.
    + intros k'. by rewrite elem_of_app, list_elem_of_singleton.
Qed.

Lemma get_stacks_dict_last (ctx : Context) (n : string) :
  get_stacks_dict ctx !! n = last (filter (λ s, fqn s = n) (get_stacks ctx)).
Proof.
  unfold get_stacks_dict.
  rewrite (foldl_insert_last fqn (λ s, s)), lookup_empty.
  by destruct (last _).
Qed.

Lemma get_stacks_dict_is_Some (ctx : Context) (n : string) :
  is_Some (get_stacks_dict ctx !! n) ↔ n ∈ fqn <$> get_stacks ctx.
Proof.
  rewrite get_stacks_dict_last, (last_filter_is_Some (λ s, fqn s = n)).
  rewrite list_elem_of_fmap.
  split; intros (s & H1 & H2); exists s; done.
Qed.

(** The loop of [_generate_plan] over names that are all keys of [stacks],
    repeated or not: it returns, the plan keeps one node per key, and the
    node of each name of the loop is the one added for it. *)
Lemma foldl_add_step_any {W} (a : Action W) (stacks : gmap string Stack)
    (deps : gmap string (gset string)) (order : list string) (plan : Plan W) :
  (∀ n, n ∈ order → is_Some (stacks !! n)) →
  (∀ n stack, stacks !! n = Some stack → fqn stack = n) →
  NoDup (steps plan).*1 →
  ∃ plan',
    foldl (add_step a stacks deps) (Return plan) order = Return plan' ∧
    NoDup (steps plan').*1 ∧
    (∀ k, k ∈ (steps plan').*1 ↔ k ∈ (steps plan).*1 ∨ k ∈ order) ∧
    (∀ n stack, n ∈ order → stacks !! n = Some stack →
       od_get n (steps plan') =
         Some {| step_stack := stack; run_func := _launch_stack a;
                 step_requires := deps !! n |}) ∧
    (∀ k, k ∉ order → od_get k (steps plan') = od_get k (steps plan)).
Proof.
  intros Hall Hfqn. revert plan Hall.
  induction order as [|n order IH]; intros plan Hall Hnd.
  - exists plan. cbn. split; [done|]. split; [done|]. split; [|split].
    + intros k. split; [by left|]. intros [?|?%elem_of_nil]; done.
    + intros n stack Hn. by apply elem_of_nil in Hn.
    + done.
  - destruct (Hall n) as [stack Hstack]; [apply elem_of_cons; by left|].
    pose proof (Hfqn n stack Hstack) as Hname.
    set (step := {| step_stack := stack; run_func := _launch_stack a;
                    step_requires := deps !! n |}).
    destruct (od_insert_keys n step (steps plan) Hnd) as [Hnd1 Hkeys1].
    destruct (IH (plan_add plan stack (_launch_stack a) (deps !! n)))
      as (plan' & Hrun & Hnd' & Hkeys & Hget & Hold).
    { intros m Hm. apply Hall, elem_of_cons. by right. }
    { cbn [plan_add steps]. by rewrite Hname. }
    assert (Hsteps : steps (plan_add plan stack (_launch_stack a) (deps !! n))
                     = od_insert n step (steps plan)).
    { cbn [plan_add steps]. by rewrite Hname. }
    rewrite Hsteps in Hkeys, Hold.
    exists plan'. split; [|split; [done|split; [|split]]].
    + cbn [foldl]. unfold add_step at 2. by rewrite Hstack.
    + intros k. rewrite Hkeys, Hkeys1, elem_of_cons. tauto.
    + intros m stack' Hm Hm'.
      destruct (decide (m ∈ order)) as [Hin|Hnin]; [by apply Hget|].
      apply elem_of_cons in Hm as [->|Hm]; [|done].
      rewrite Hstack in Hm'. injection Hm' as <-.
      rewrite Hold by done. apply od_get_insert_eq.
    + intros k Hk. apply not_elem_of_cons in Hk as [Hne Hk].
      rewrite Hold by done. by apply od_get_insert_ne.
Qed.

Lemma foldl_add_step_raise {W} (a : Action W) (stacks : gmap string Stack)
    (deps : gmap string (gset string)) (order : list string) (e : exn) :
  foldl (add_step a stacks deps) (Raise e) order = Raise e.
Proof. induction order as [|n order IH]; [done|]. exact IH. Qed.

(** X12: a name of the execution order that no stack of the build bears
    makes [_generate_plan] raise [KeyError] with the first such name; no
    plan is returned. *)
Theorem generate_plan_unknown_name {W} (a : Action W) (tail : bool)
    (known : list string) (n : string) (rest : list string) :
  get_stack_execution_order a (_get_dependencies a) = known ++ n :: rest →
  (∀ m, m ∈ known → m ∈ fqn <$> get_stacks (context a)) →
  n ∉ fqn <$> get_stacks (context a) →
  _generate_plan a tail = Raise (KeyError n).
Proof.
  intros Horder Hknown Hn. unfold _generate_plan. rewrite Horder, foldl_app.
  destruct (foldl_add_step_any a (get_stacks_dict (context a))
              (_get_dependencies a) known
              {| plan_description := "Create/Update stacks";
                 plan_logger_type := logger_type (context a);
                 plan_tail := tail;
                 poll_func := poll_events (provider a);
                 steps := [] |})
    as (plan & -> & _).
  { intros m Hm. by apply get_stacks_dict_is_Some, Hknown. }
  { apply get_stacks_dict_key. }
  { constructor. }
  cbn [foldl]. unfold add_step at 2.
  destruct (get_stacks_dict (context a) !! n) as [stack|] eqn:Hdict.
  - destruct Hn. apply get_stacks_dict_is_Some. by eexists.
  - apply foldl_add_step_raise.
Qed.

Lemma generate_plan_unknown_name_witness :
  let vpc := Sim.sim_stack "vpc" [] [] [] [] false false true in
  let a : Action Sim.state :=
    {| context := Sim.sim_context [vpc] [];
       provider := Sim.sim_provider;
       s3_stack_push := λ bp s, (Return ("https://s3/" +:+ bp_name bp), s);
       stack_resolve := λ st s, (Return (parameter_values st), s);
       handle_hooks := λ _ _ s, (Return tt, s);
       get_stack_execution_order := λ _, ["ns-vpc"; "ns-db"; "ns-app"] |} in
  _generate_plan a false = Raise (KeyError "ns-db").
Proof.
  intros vpc a.
  apply (generate_plan_unknown_name a false ["ns-vpc"] "ns-db" ["ns-app"]).
  - reflexivity.
  - intros m ->%list_elem_of_singleton. compute_done.
  - compute_done.
Defined.

(** X13: when every name of the execution order is the name of a stack of
    the build, [_generate_plan] returns, also when the order repeats a name
    or leaves one out: the plan has one node per name of the order and no
    two nodes under one name; the node of a name carries the last stack that
    bears the name, [_launch_stack] and that stack's [requires]. *)
Theorem generate_plan_any_order {W} (a : Action W) (tail : bool) :
  let stacks := get_stacks (context a) in
  let order := get_stack_execution_order a (_get_dependencies a) in
  (∀ n, n ∈ order → n ∈ fqn <$> stacks) →
  ∃ plan,
    _generate_plan a tail = Return plan ∧
    NoDup (steps plan).*1 ∧
    (∀ k, k ∈ (steps plan).*1 ↔ k ∈ order) ∧
    ∀ n, n ∈ order →
      ∃ stack,
        last (filter (λ s, fqn s = n) stacks) = Some stack ∧
        od_get n (steps plan) =
          Some {| step_stack := stack;
                  run_func := _launch_stack a;
                  step_requires := Some (requires stack) |}.
Proof.
  intros stacks order Hall.
  destruct (foldl_add_step_any a (get_stacks_dict (context a))
              (_get_dependencies a) order
              {| plan_description := "Create/Update stacks";
                 plan_logger_type := logger_type (context a);
                 plan_tail := tail;
                 poll_func := poll_events (provider a);
                 steps := [] |})
    as (plan & Hrun & Hnd & Hkeys & Hget & _).
  { intros m Hm. by apply get_stacks_dict_is_Some, Hall. }
  { apply get_stacks_dict_key. }
  { constructor. }
  exists plan. split; [exact Hrun|]. split; [exact Hnd|]. split.
  - intros k. rewrite Hkeys. cbn. split; [|by right].
    intros [?%elem_of_nil|?]; done.
  - intros n Hn.
    destruct (proj2 (get_stacks_dict_is_Some (context a) n) (Hall n Hn))
      as [stack Hstack].
    exists stack. rewrite get_stacks_dict_last in Hstack.
    split; [exact Hstack|].
    rewrite (Hget n stack Hn) by (by rewrite get_stacks_dict_last).
    do 2 f_equal. unfold _get_dependencies.
    rewrite (foldl_insert_last fqn requires), lookup_empty.
    by rewrite Hstack.
Qed.

Lemma generate_plan_any_order_witness :
  let vpc := Sim.sim_stack "vpc" [] [] [] [] false false true in
  let db := Sim.sim_stack "db" [] [] [] ["ns-vpc"] false false true in
  let a : Action Sim.state :=
    {| context := Sim.sim_context [vpc; db] [];
       provider := Sim.sim_provider;
       s3_stack_push := λ bp s, (Return ("https://s3/" +:+ bp_name bp), s);
       stack_resolve := λ st s, (Return (parameter_values st), s);
       handle_hooks := λ _ _ s, (Return tt, s);
       get_stack_execution_order := λ _, ["ns-vpc"; "ns-db"; "ns-vpc"] |} in
  ∃ plan,
    _generate_plan a false = Return plan ∧
    NoDup (steps plan).*1 ∧
    ∀ k, k ∈ (steps plan).*1 ↔ k ∈ ["ns-vpc"; "ns-db"; "ns-vpc"].
Proof.
  intros vpc db a.
  destruct (generate_plan_any_order a false) as (plan & Hrun & Hnd & Hkeys & _).
  - intros n Hn. apply list_elem_of_In in Hn. cbn in Hn.
    destruct Hn as [<-|[<-|[<-|[]]]]; compute_done.
  - exists plan. split; [exact Hrun|]. split; [exact Hnd|exact Hkeys].
Defined.

(** ** Running the build *)

(** Settles one case of [run]: the new calls to the plan are [new]. *)
Ltac run_case new :=
  exists new; cbn [fst snd rw_plan_calls];
  rewrite <- ?app_assoc, ?app_nil_r; cbn [app];
  repeat split;
  first [ done
        | by eexists
        | intros ?; discriminate
        | intros ?%list_elem_of_In; cbn in *; intuition discriminate ].



(** X15: with neither [outline] nor [dump] set, [run] calls the plan's
    [outline] at level [DEBUG] and then [execute], and never [dump]; when
    the outline raises, [execute] is not called; when [run] returns, both
    calls were made. When the plan cannot be generated, [run] raises what
    [_generate_plan] raises and calls no method of the plan. *)
Theorem run_execute_mode {W} (a : Action W) (methods : PlanMethods W)
    (tail : bool) (dump : pyval) (rw : run_world W) :
  py_truthy dump = false →
  let out := run a methods false tail dump rw in
  (∃ new,
     rw_plan_calls out.2 = rw_plan_calls rw ++ new ∧
     new `prefix_of` [PlanOutline (Some DEBUG); PlanExecute] ∧
     (out.1 = Return tt → new = [PlanOutline (Some DEBUG); PlanExecute])) ∧
  (∀ plan e w1,
     _generate_plan a tail = Return plan →
     plan_outline methods plan (Some DEBUG) (rw_world rw) = (Raise e, w1) →
     out = (Raise e,
            RunWorld w1 (rw_plan_calls rw ++ [PlanOutline (Some DEBUG)]))) ∧
  (∀ plan w1,
     _generate_plan a tail = Return plan →
     plan_outline methods plan (Some DEBUG) (rw_world rw) = (Return tt, w1) →
     out = ((plan_execute methods plan w1).1,
            RunWorld (plan_execute methods plan w1).2
              (rw_plan_calls rw ++ [PlanOutline (Some DEBUG); PlanExecute]))) ∧
  (∀ e, _generate_plan a tail = Raise e → out = (Raise e, rw)).
Proof.
  intros Hdump. cbv zeta. unfold run. rewrite Hdump. cbn [negb andb].
  split; [|split; [|split]].
  - destruct (_generate_plan a tail) as [e|plan].
    { run_case (@nil plan_call). }
    unfold plan_method.
    destruct (plan_outline methods plan (Some DEBUG) (rw_world rw))
      as [[e|[]] w1].
    { run_case [PlanOutline (Some DEBUG)]. }
    cbn [rw_world].
    destruct (plan_execute methods plan w1) as [[e|[]] w2].
    + run_case [PlanOutline (Some DEBUG); PlanExecute].
    + run_case [PlanOutline (Some DEBUG); PlanExecute].
  - intros plan e w1 -> Hout. unfold plan_method. by rewrite Hout.
  - intros plan w1 -> Hout. unfold plan_method. rewrite Hout. cbn [rw_world].
    destruct (plan_execute methods plan w1) as [r w2].
    cbn [fst snd rw_plan_calls]. by rewrite <- app_assoc.
  - by intros e ->.
Qed.

Lemma run_execute_mode_witness :
  let vpc := Sim.sim_stack "vpc" [] [] [] [] false false true in
  let a := Sim.sim_action [vpc] [] in
  let methods : PlanMethods Sim.state :=
    {| plan_outline := λ _ _, ret tt;
       plan_execute := λ plan w,
         match _launch_stack a vpc w with
         | (Return _, w') => (Return tt, w')
         | (Raise e, w') => (Raise e, w')
         end;
       plan_dump := λ _ _ _, raise (OtherError "dumped") |} in
  let rw := RunWorld (Sim.start ∅) [] in
  py_truthy (PBool false) = false ∧
  ∃ new,
    rw_plan_calls (run a methods false false (PBool false) rw).2 = [] ++ new ∧
    new `prefix_of` [PlanOutline (Some DEBUG); PlanExecute].
Proof.
  intros vpc a methods rw. split; [reflexivity|].
  destruct (run_execute_mode a methods false (PBool false) rw eq_refl)
    as ((new & Hcalls & Hpre & _) & _).
  exists new. split; [exact Hcalls|exact Hpre].
Defined.

(** ** Deployed values, tags and statuses *)

(** X16: the dictionary the fallback builds from the description's
    ['Parameters'] holds, under each key, the value of the last entry that
    has the key: of a parameter listed twice the later value is taken, and a
    key no entry has is absent. *)
Theorem stack_params_of_last (entries : list cf_param) (k : string) :
  stack_params_of entries !! k
    = ParameterValue <$> last (filter (λ p, ParameterKey p = k) entries).
Proof.
  unfold stack_params_of.
  rewrite (foldl_insert_last ParameterKey ParameterValue), lookup_empty.
  by destruct (last _).
Qed.

(** X17: the tags of a stack are the tags of the build context, one
    [{'Key', 'Value'}] entry per tag and no key twice, whatever the stack. *)
Theorem build_stack_tags_spec {W} (a : Action W) (stack : Stack) :
  (∀ k v, CfTag k v ∈ _build_stack_tags a stack ↔
          tags (context a) !! k = Some v) ∧
  NoDup (Key <$> _build_stack_tags a stack) ∧
  List.length (_build_stack_tags a stack) = size (tags (context a)).
Proof.
  unfold _build_stack_tags. split; [|split].
  - intros k v. rewrite list_elem_of_fmap. split.
    + intros [[k' v'] [[= -> ->] Hin]]. by apply elem_of_map_to_list.
    + intros Hkv. exists (k, v). split; [done|]. by apply elem_of_map_to_list.
  - rewrite <- list_fmap_compose.
    rewrite (list_fmap_ext _ fst (map_to_list (tags (context a)))) by done.
    apply NoDup_fst_map_to_list.
  - by rewrite length_fmap, length_map_to_list.
Qed.

(** X18: what a returned status says about the launch.
    [NotSubmittedStatus] is returned only for a disabled stack, in the world
    the launch started in; [NotUpdatedStatus] only for an enabled stack that
    is locked and not forced; [DidNotChangeStatus] only for an enabled stack
    that passed the update gate, the last call being the update;
    a [SubmittedStatus] carries ["UPDATING_STACK"] with the update as last
    call, or ["CREATE_STACK"] with the create as last call, and no other
    reason. *)
Theorem launch_status_sound {W} (a : Action W) (stack : Stack) (w w' : world W)
    (status : Status) :
  _launch_stack a stack w = (Return status, w') →
  match status with
  | NotSubmittedStatus => enabled stack = false ∧ w' = w
  | NotUpdatedStatus =>
      enabled stack = true ∧ locked stack = true ∧ force stack = false
  | DidNotChangeStatus =>
      enabled stack = true ∧ should_update stack = true ∧
      ∃ url ps ts,
        last (calls w') = Some (CallUpdateStack (fqn stack) url ps ts)
  | SubmittedStatus reason =>
      enabled stack = true ∧ should_update stack = true ∧
      ∃ url ps ts,
        (reason = "UPDATING_STACK" ∧
         last (calls w') = Some (CallUpdateStack (fqn stack) url ps ts)) ∨
        (reason = "CREATE_STACK" ∧
         last (calls w') = Some (CallCreateStack (fqn stack) url ps ts))
  end.
Proof.
  intros Hrun.
  destruct (enabled stack) eqn:Hen.
  2: { unfold _launch_stack, should_submit in Hrun. rewrite Hen in Hrun.
       cbn in Hrun. by injection Hrun as <- <-. }
  destruct (stack_resolve a stack (remote w)) as [[e|values] s1] eqn:Hres.
  { by rewrite (launch_resolve_raises a stack w e s1) in Hrun. }
  destruct (s3_stack_push a (blueprint stack) s1) as [[e|url] s2] eqn:Hpush.
  { by rewrite (launch_push_raises a stack w values s1 e s2) in Hrun. }
  destruct (build_parameters a (resolved_stack stack values)
              (after_push w stack s2)) as [[e|ps] w3] eqn:Hbuild.
  { by rewrite (launch_build_raises a stack w values s1 url s2 e w3) in Hrun. }
  rewrite (launch_after_steps a stack w values s1 url s2 ps w3) in Hrun by done.
  destruct (should_update stack) eqn:Hup.
  2: { injection Hrun as <- <-. unfold should_update in Hup.
       destruct (locked stack), (force stack); done. }
  rewrite update_or_create_run in Hrun. cbv zeta in Hrun.
  cbn [fqn resolved_stack] in Hrun.
  set (ts := _build_stack_tags a (resolved_stack stack values)) in *.
  destruct (update_stack (provider a) (fqn stack) url ps ts (remote w3))
    as [[e|[]] s4].
  2: { injection Hrun as <- <-. split; [done|]. split; [done|].
       exists url, ps, ts. left. split; [done|]. cbn. apply last_snoc. }
  destruct e; try discriminate.
  - destruct (create_stack (provider a) (fqn stack) url ps ts s4)
      as [[e|[]] s5]; [discriminate|].
    injection Hrun as <- <-. split; [done|]. split; [done|].
    exists url, ps, ts. right. split; [done|]. cbn.
    change [CallUpdateStack (fqn stack) url ps ts;
            CallCreateStack (fqn stack) url ps ts]
      with ([CallUpdateStack (fqn stack) url ps ts]
            ++ [CallCreateStack (fqn stack) url ps ts]).
    rewrite app_assoc. apply last_snoc.
  - injection Hrun as <- <-. split; [done|]. split; [done|].
    exists url, ps, ts. cbn. apply last_snoc.
Qed.

Lemma launch_status_sound_witness :
  let stack := Sim.sim_stack "b" [] [] [] [] false false true in
  let a := Sim.sim_action [stack] [] in
  ∃ w',
    _launch_stack a stack (Sim.start ∅)
      = (Return (SubmittedStatus "CREATE_STACK"), w') ∧
    ∃ url ps ts, last (calls w') = Some (CallCreateStack "ns-b" url ps ts).
Proof.
  intros stack a.
  destruct (_launch_stack a stack (Sim.start ∅)) as [r w'] eqn:Hrun.
  assert (Hr : r = Return (SubmittedStatus "CREATE_STACK")).
  { apply (f_equal fst) in Hrun. vm_compute in Hrun. by symmetry. }
  subst r. exists w'. split; [done|].
  destruct (launch_status_sound a stack (Sim.start ∅) w' _ Hrun)
    as (_ & _ & url & ps & ts & [[Hreason _]|[_ Hlast]]).
  - exfalso. apply (f_equal String.length) in Hreason. cbn in Hreason. lia.
  - by exists url, ps, ts.
Defined.
